(** * Verification of [audio_monitor.py]

    A shallow embedding of the audio-transcription monitor: the extension
    filter of [AudioHandler.on_created], the per-file pipeline
    [transcribe_file], and the dispatch of creation events to the handler.

    Python values are modelled as follows.
    - A [str] is the list of its Unicode code points ([pystr]); [bytes] is
      a list of octets.
    - The helpers of [os.path] follow CPython's [posixpath] and
      [genericpath] (the script watches and writes under [/tmp]).
    - [str.lower] and [str.upper] follow CPython's full case mapping
      (Unicode 14.0 tables).
    - The file system, the console and the transcription client are an
      explicit [World] threaded through a state-and-exception monad.
      Printing and sleeping always succeed; text is written as on POSIX,
      without newline translation. *)

From Stdlib Require Import ZArith NArith List Bool Ascii String Lia.
From stdpp Require Import base option list gmap.

Local Open Scope N_scope.

(** ** Strings *)

Definition pystr := list N.
Definition bytes := list N.

(** A string literal of the script, read as code points. *)
Definition str (s : string) : pystr := map N_of_ascii (list_ascii_of_string s).

(** [p.rfind(c)]: the highest index at which [c] occurs in [p], or [-1]. *)
Fixpoint rfind (c : N) (p : pystr) : Z :=
  match p with
  | [] => (-1)%Z
  | x :: p' =>
      let r := rfind c p' in
      if (0 <=? r)%Z then (r + 1)%Z
      else if x =? c then 0%Z else (-1)%Z
  end.

(** Slices [p[:i]], [p[i:]] and [p[i:j]] for indices [0 <= i <= j]. *)
Definition slice_to (p : pystr) (i : Z) : pystr := take (Z.to_nat i) p.
Definition slice_from (p : pystr) (i : Z) : pystr := drop (Z.to_nat i) p.
Definition slice (p : pystr) (i j : Z) : pystr :=
  take (Z.to_nat j - Z.to_nat i) (drop (Z.to_nat i) p).

(** ** [os.path] (posixpath) *)

Definition SEP : N := 0x2F.     (* '/' *)
Definition EXTSEP : N := 0x2E.  (* '.' *)

(** [os.path.basename(p)]: [i = p.rfind('/') + 1; return p[i:]]. *)
Definition basename (p : pystr) : pystr :=
  let i := (rfind SEP p + 1)%Z in
  slice_from p i.

(** [os.path.splitext(p)], i.e. [genericpath._splitext(p, '/', None, '.')].
    The loop that skips leading dots returns the split at the first index
    of [p[sepIndex+1:dotIndex]] holding a character other than ['.'], and
    falls through to [(p, '')] when there is none. *)
Definition splitext (p : pystr) : pystr * pystr :=
  let sepIndex := rfind SEP p in
  let dotIndex := rfind EXTSEP p in
  if (sepIndex <? dotIndex)%Z
     && existsb (fun c => negb (c =? EXTSEP)) (slice p (sepIndex + 1) dotIndex)
  then (slice_to p dotIndex, slice_from p dotIndex)
  else (p, []).

(** [os.path.join(a, b)] for two components: [b] alone when it starts with
    the separator, else [a + b] when [a] is empty or ends with the
    separator, else [a + '/' + b]. *)
Definition startswith_sep (b : pystr) : bool :=
  match b with c :: _ => c =? SEP | [] => false end.

Definition endswith_sep (a : pystr) : bool :=
  match last a with Some c => c =? SEP | None => false end.

Definition join (a b : pystr) : pystr :=
  if startswith_sep b then b
  else if bool_decide (a = []) || endswith_sep a then a ++ b
  else a ++ SEP :: b.

(** ** Case mapping

    [str.lower] and [str.upper] map every code point through the full case
    mapping of the Unicode database and concatenate the images.  A row
    [(lo, hi, stride, target)] of a range table sends each [c = lo + k *
    stride <= hi] to [target + (c - lo)]; the special tables hold the code
    points whose image is not a single code point; every other code point
    is its own image.  In CPython [str.lower] writes U+03C2 instead of
    U+03C3 for a capital sigma in word-final position; that refinement is
    not modelled (both images lie outside ASCII). *)

Definition lower_ranges : list (N * N * N * N) :=
  [ (0x41, 0x5A, 1, 0x61); (0xC0, 0xD6, 1, 0xE0); (0xD8, 0xDE, 1, 0xF8);
    (0x100, 0x12E, 2, 0x101); (0x132, 0x136, 2, 0x133); (0x139, 0x147, 2, 0x13A);
    (0x14A, 0x176, 2, 0x14B); (0x178, 0x178, 1, 0xFF); (0x179, 0x17D, 2, 0x17A);
    (0x181, 0x181, 1, 0x253); (0x182, 0x184, 2, 0x183); (0x186, 0x186, 1, 0x254);
    (0x187, 0x187, 1, 0x188); (0x189, 0x18A, 1, 0x256); (0x18B, 0x18B, 1, 0x18C);
    (0x18E, 0x18E, 1, 0x1DD); (0x18F, 0x18F, 1, 0x259); (0x190, 0x190, 1, 0x25B);
    (0x191, 0x191, 1, 0x192); (0x193, 0x193, 1, 0x260); (0x194, 0x194, 1, 0x263);
    (0x196, 0x196, 1, 0x269); (0x197, 0x197, 1, 0x268); (0x198, 0x198, 1, 0x199);
    (0x19C, 0x19C, 1, 0x26F); (0x19D, 0x19D, 1, 0x272); (0x19F, 0x19F, 1, 0x275);
    (0x1A0, 0x1A4, 2, 0x1A1); (0x1A6, 0x1A6, 1, 0x280); (0x1A7, 0x1A7, 1, 0x1A8);
    (0x1A9, 0x1A9, 1, 0x283); (0x1AC, 0x1AC, 1, 0x1AD); (0x1AE, 0x1AE, 1, 0x288);
    (0x1AF, 0x1AF, 1, 0x1B0); (0x1B1, 0x1B2, 1, 0x28A); (0x1B3, 0x1B5, 2, 0x1B4);
    (0x1B7, 0x1B7, 1, 0x292); (0x1B8, 0x1B8, 1, 0x1B9); (0x1BC, 0x1BC, 1, 0x1BD);
    (0x1C4, 0x1C4, 1, 0x1C6); (0x1C5, 0x1C5, 1, 0x1C6); (0x1C7, 0x1C7, 1, 0x1C9);
    (0x1C8, 0x1C8, 1, 0x1C9); (0x1CA, 0x1CA, 1, 0x1CC); (0x1CB, 0x1DB, 2, 0x1CC);
    (0x1DE, 0x1EE, 2, 0x1DF); (0x1F1, 0x1F1, 1, 0x1F3); (0x1F2, 0x1F4, 2, 0x1F3);
    (0x1F6, 0x1F6, 1, 0x195); (0x1F7, 0x1F7, 1, 0x1BF); (0x1F8, 0x21E, 2, 0x1F9);
    (0x220, 0x220, 1, 0x19E); (0x222, 0x232, 2, 0x223); (0x23A, 0x23A, 1, 0x2C65);
    (0x23B, 0x23B, 1, 0x23C); (0x23D, 0x23D, 1, 0x19A); (0x23E, 0x23E, 1, 0x2C66);
    (0x241, 0x241, 1, 0x242); (0x243, 0x243, 1, 0x180); (0x244, 0x244, 1, 0x289);
    (0x245, 0x245, 1, 0x28C); (0x246, 0x24E, 2, 0x247); (0x370, 0x372, 2, 0x371);
    (0x376, 0x376, 1, 0x377); (0x37F, 0x37F, 1, 0x3F3); (0x386, 0x386, 1, 0x3AC);
    (0x388, 0x38A, 1, 0x3AD); (0x38C, 0x38C, 1, 0x3CC); (0x38E, 0x38F, 1, 0x3CD);
    (0x391, 0x3A1, 1, 0x3B1); (0x3A3, 0x3AB, 1, 0x3C3); (0x3CF, 0x3CF, 1, 0x3D7);
    (0x3D8, 0x3EE, 2, 0x3D9); (0x3F4, 0x3F4, 1, 0x3B8); (0x3F7, 0x3F7, 1, 0x3F8);
    (0x3F9, 0x3F9, 1, 0x3F2); (0x3FA, 0x3FA, 1, 0x3FB); (0x3FD, 0x3FF, 1, 0x37B);
    (0x400, 0x40F, 1, 0x450); (0x410, 0x42F, 1, 0x430); (0x460, 0x480, 2, 0x461);
    (0x48A, 0x4BE, 2, 0x48B); (0x4C0, 0x4C0, 1, 0x4CF); (0x4C1, 0x4CD, 2, 0x4C2);
    (0x4D0, 0x52E, 2, 0x4D1); (0x531, 0x556, 1, 0x561); (0x10A0, 0x10C5, 1, 0x2D00);
    (0x10C7, 0x10C7, 1, 0x2D27); (0x10CD, 0x10CD, 1, 0x2D2D); (0x13A0, 0x13EF, 1, 0xAB70);
    (0x13F0, 0x13F5, 1, 0x13F8); (0x1C90, 0x1CBA, 1, 0x10D0); (0x1CBD, 0x1CBF, 1, 0x10FD);
    (0x1E00, 0x1E94, 2, 0x1E01); (0x1E9E, 0x1E9E, 1, 0xDF); (0x1EA0, 0x1EFE, 2, 0x1EA1);
    (0x1F08, 0x1F0F, 1, 0x1F00); (0x1F18, 0x1F1D, 1, 0x1F10); (0x1F28, 0x1F2F, 1, 0x1F20);
    (0x1F38, 0x1F3F, 1, 0x1F30); (0x1F48, 0x1F4D, 1, 0x1F40); (0x1F59, 0x1F5F, 2, 0x1F51);
    (0x1F68, 0x1F6F, 1, 0x1F60); (0x1F88, 0x1F8F, 1, 0x1F80); (0x1F98, 0x1F9F, 1, 0x1F90);
    (0x1FA8, 0x1FAF, 1, 0x1FA0); (0x1FB8, 0x1FB9, 1, 0x1FB0); (0x1FBA, 0x1FBB, 1, 0x1F70);
    (0x1FBC, 0x1FBC, 1, 0x1FB3); (0x1FC8, 0x1FCB, 1, 0x1F72); (0x1FCC, 0x1FCC, 1, 0x1FC3);
    (0x1FD8, 0x1FD9, 1, 0x1FD0); (0x1FDA, 0x1FDB, 1, 0x1F76); (0x1FE8, 0x1FE9, 1, 0x1FE0);
    (0x1FEA, 0x1FEB, 1, 0x1F7A); (0x1FEC, 0x1FEC, 1, 0x1FE5); (0x1FF8, 0x1FF9, 1, 0x1F78);
    (0x1FFA, 0x1FFB, 1, 0x1F7C); (0x1FFC, 0x1FFC, 1, 0x1FF3); (0x2126, 0x2126, 1, 0x3C9);
    (0x212A, 0x212A, 1, 0x6B); (0x212B, 0x212B, 1, 0xE5); (0x2132, 0x2132, 1, 0x214E);
    (0x2160, 0x216F, 1, 0x2170); (0x2183, 0x2183, 1, 0x2184); (0x24B6, 0x24CF, 1, 0x24D0);
    (0x2C00, 0x2C2F, 1, 0x2C30); (0x2C60, 0x2C60, 1, 0x2C61); (0x2C62, 0x2C62, 1, 0x26B);
    (0x2C63, 0x2C63, 1, 0x1D7D); (0x2C64, 0x2C64, 1, 0x27D); (0x2C67, 0x2C6B, 2, 0x2C68);
    (0x2C6D, 0x2C6D, 1, 0x251); (0x2C6E, 0x2C6E, 1, 0x271); (0x2C6F, 0x2C6F, 1, 0x250);
    (0x2C70, 0x2C70, 1, 0x252); (0x2C72, 0x2C72, 1, 0x2C73); (0x2C75, 0x2C75, 1, 0x2C76);
    (0x2C7E, 0x2C7F, 1, 0x23F); (0x2C80, 0x2CE2, 2, 0x2C81); (0x2CEB, 0x2CED, 2, 0x2CEC);
    (0x2CF2, 0x2CF2, 1, 0x2CF3); (0xA640, 0xA66C, 2, 0xA641); (0xA680, 0xA69A, 2, 0xA681);
    (0xA722, 0xA72E, 2, 0xA723); (0xA732, 0xA76E, 2, 0xA733); (0xA779, 0xA77B, 2, 0xA77A);
    (0xA77D, 0xA77D, 1, 0x1D79); (0xA77E, 0xA786, 2, 0xA77F); (0xA78B, 0xA78B, 1, 0xA78C);
    (0xA78D, 0xA78D, 1, 0x265); (0xA790, 0xA792, 2, 0xA791); (0xA796, 0xA7A8, 2, 0xA797);
    (0xA7AA, 0xA7AA, 1, 0x266); (0xA7AB, 0xA7AB, 1, 0x25C); (0xA7AC, 0xA7AC, 1, 0x261);
    (0xA7AD, 0xA7AD, 1, 0x26C); (0xA7AE, 0xA7AE, 1, 0x26A); (0xA7B0, 0xA7B0, 1, 0x29E);
    (0xA7B1, 0xA7B1, 1, 0x287); (0xA7B2, 0xA7B2, 1, 0x29D); (0xA7B3, 0xA7B3, 1, 0xAB53);
    (0xA7B4, 0xA7C2, 2, 0xA7B5); (0xA7C4, 0xA7C4, 1, 0xA794); (0xA7C5, 0xA7C5, 1, 0x282);
    (0xA7C6, 0xA7C6, 1, 0x1D8E); (0xA7C7, 0xA7C9, 2, 0xA7C8); (0xA7D0, 0xA7D0, 1, 0xA7D1);
    (0xA7D6, 0xA7D8, 2, 0xA7D7); (0xA7F5, 0xA7F5, 1, 0xA7F6); (0xFF21, 0xFF3A, 1, 0xFF41);
    (0x10400, 0x10427, 1, 0x10428); (0x104B0, 0x104D3, 1, 0x104D8); (0x10570, 0x10594, 2, 0x10597);
    (0x10571, 0x10579, 2, 0x10598); (0x1057D, 0x10589, 2, 0x105A4); (0x1058D, 0x10591, 2, 0x105B4);
    (0x10595, 0x10595, 1, 0x105BC); (0x10C80, 0x10CB2, 1, 0x10CC0); (0x118A0, 0x118BF, 1, 0x118C0);
    (0x16E40, 0x16E5F, 1, 0x16E60); (0x1E900, 0x1E921, 1, 0x1E922) ].

Definition lower_special : list (N * list N) :=
  [ (0x130, [0x69; 0x307]) ].

Definition upper_ranges : list (N * N * N * N) :=
  [ (0x61, 0x7A, 1, 0x41); (0xB5, 0xB5, 1, 0x39C); (0xE0, 0xF6, 1, 0xC0);
    (0xF8, 0xFE, 1, 0xD8); (0xFF, 0xFF, 1, 0x178); (0x101, 0x12F, 2, 0x100);
    (0x131, 0x131, 1, 0x49); (0x133, 0x137, 2, 0x132); (0x13A, 0x148, 2, 0x139);
    (0x14B, 0x177, 2, 0x14A); (0x17A, 0x17E, 2, 0x179); (0x17F, 0x17F, 1, 0x53);
    (0x180, 0x180, 1, 0x243); (0x183, 0x185, 2, 0x182); (0x188, 0x188, 1, 0x187);
    (0x18C, 0x18C, 1, 0x18B); (0x192, 0x192, 1, 0x191); (0x195, 0x195, 1, 0x1F6);
    (0x199, 0x199, 1, 0x198); (0x19A, 0x19A, 1, 0x23D); (0x19E, 0x19E, 1, 0x220);
    (0x1A1, 0x1A5, 2, 0x1A0); (0x1A8, 0x1A8, 1, 0x1A7); (0x1AD, 0x1AD, 1, 0x1AC);
    (0x1B0, 0x1B0, 1, 0x1AF); (0x1B4, 0x1B6, 2, 0x1B3); (0x1B9, 0x1B9, 1, 0x1B8);
    (0x1BD, 0x1BD, 1, 0x1BC); (0x1BF, 0x1BF, 1, 0x1F7); (0x1C5, 0x1C5, 1, 0x1C4);
    (0x1C6, 0x1C6, 1, 0x1C4); (0x1C8, 0x1C8, 1, 0x1C7); (0x1C9, 0x1C9, 1, 0x1C7);
    (0x1CB, 0x1CB, 1, 0x1CA); (0x1CC, 0x1CC, 1, 0x1CA); (0x1CE, 0x1DC, 2, 0x1CD);
    (0x1DD, 0x1DD, 1, 0x18E); (0x1DF, 0x1EF, 2, 0x1DE); (0x1F2, 0x1F2, 1, 0x1F1);
    (0x1F3, 0x1F3, 1, 0x1F1); (0x1F5, 0x1F5, 1, 0x1F4); (0x1F9, 0x21F, 2, 0x1F8);
    (0x223, 0x233, 2, 0x222); (0x23C, 0x23C, 1, 0x23B); (0x23F, 0x240, 1, 0x2C7E);
    (0x242, 0x242, 1, 0x241); (0x247, 0x24F, 2, 0x246); (0x250, 0x250, 1, 0x2C6F);
    (0x251, 0x251, 1, 0x2C6D); (0x252, 0x252, 1, 0x2C70); (0x253, 0x253, 1, 0x181);
    (0x254, 0x254, 1, 0x186); (0x256, 0x257, 1, 0x189); (0x259, 0x259, 1, 0x18F);
    (0x25B, 0x25B, 1, 0x190); (0x25C, 0x25C, 1, 0xA7AB); (0x260, 0x260, 1, 0x193);
    (0x261, 0x261, 1, 0xA7AC); (0x263, 0x263, 1, 0x194); (0x265, 0x265, 1, 0xA78D);
    (0x266, 0x266, 1, 0xA7AA); (0x268, 0x268, 1, 0x197); (0x269, 0x269, 1, 0x196);
    (0x26A, 0x26A, 1, 0xA7AE); (0x26B, 0x26B, 1, 0x2C62); (0x26C, 0x26C, 1, 0xA7AD);
    (0x26F, 0x26F, 1, 0x19C); (0x271, 0x271, 1, 0x2C6E); (0x272, 0x272, 1, 0x19D);
    (0x275, 0x275, 1, 0x19F); (0x27D, 0x27D, 1, 0x2C64); (0x280, 0x280, 1, 0x1A6);
    (0x282, 0x282, 1, 0xA7C5); (0x283, 0x283, 1, 0x1A9); (0x287, 0x287, 1, 0xA7B1);
    (0x288, 0x288, 1, 0x1AE); (0x289, 0x289, 1, 0x244); (0x28A, 0x28B, 1, 0x1B1);
    (0x28C, 0x28C, 1, 0x245); (0x292, 0x292, 1, 0x1B7); (0x29D, 0x29D, 1, 0xA7B2);
    (0x29E, 0x29E, 1, 0xA7B0); (0x345, 0x345, 1, 0x399); (0x371, 0x373, 2, 0x370);
    (0x377, 0x377, 1, 0x376); (0x37B, 0x37D, 1, 0x3FD); (0x3AC, 0x3AC, 1, 0x386);
    (0x3AD, 0x3AF, 1, 0x388); (0x3B1, 0x3C1, 1, 0x391); (0x3C2, 0x3C2, 1, 0x3A3);
    (0x3C3, 0x3CB, 1, 0x3A3); (0x3CC, 0x3CC, 1, 0x38C); (0x3CD, 0x3CE, 1, 0x38E);
    (0x3D0, 0x3D0, 1, 0x392); (0x3D1, 0x3D1, 1, 0x398); (0x3D5, 0x3D5, 1, 0x3A6);
    (0x3D6, 0x3D6, 1, 0x3A0); (0x3D7, 0x3D7, 1, 0x3CF); (0x3D9, 0x3EF, 2, 0x3D8);
    (0x3F0, 0x3F0, 1, 0x39A); (0x3F1, 0x3F1, 1, 0x3A1); (0x3F2, 0x3F2, 1, 0x3F9);
    (0x3F3, 0x3F3, 1, 0x37F); (0x3F5, 0x3F5, 1, 0x395); (0x3F8, 0x3F8, 1, 0x3F7);
    (0x3FB, 0x3FB, 1, 0x3FA); (0x430, 0x44F, 1, 0x410); (0x450, 0x45F, 1, 0x400);
    (0x461, 0x481, 2, 0x460); (0x48B, 0x4BF, 2, 0x48A); (0x4C2, 0x4CE, 2, 0x4C1);
    (0x4CF, 0x4CF, 1, 0x4C0); (0x4D1, 0x52F, 2, 0x4D0); (0x561, 0x586, 1, 0x531);
    (0x10D0, 0x10FA, 1, 0x1C90); (0x10FD, 0x10FF, 1, 0x1CBD); (0x13F8, 0x13FD, 1, 0x13F0);
    (0x1C80, 0x1C80, 1, 0x412); (0x1C81, 0x1C81, 1, 0x414); (0x1C82, 0x1C82, 1, 0x41E);
    (0x1C83, 0x1C84, 1, 0x421); (0x1C85, 0x1C85, 1, 0x422); (0x1C86, 0x1C86, 1, 0x42A);
    (0x1C87, 0x1C87, 1, 0x462); (0x1C88, 0x1C88, 1, 0xA64A); (0x1D79, 0x1D79, 1, 0xA77D);
    (0x1D7D, 0x1D7D, 1, 0x2C63); (0x1D8E, 0x1D8E, 1, 0xA7C6); (0x1E01, 0x1E95, 2, 0x1E00);
    (0x1E9B, 0x1E9B, 1, 0x1E60); (0x1EA1, 0x1EFF, 2, 0x1EA0); (0x1F00, 0x1F07, 1, 0x1F08);
    (0x1F10, 0x1F15, 1, 0x1F18); (0x1F20, 0x1F27, 1, 0x1F28); (0x1F30, 0x1F37, 1, 0x1F38);
    (0x1F40, 0x1F45, 1, 0x1F48); (0x1F51, 0x1F57, 2, 0x1F59); (0x1F60, 0x1F67, 1, 0x1F68);
    (0x1F70, 0x1F71, 1, 0x1FBA); (0x1F72, 0x1F75, 1, 0x1FC8); (0x1F76, 0x1F77, 1, 0x1FDA);
    (0x1F78, 0x1F79, 1, 0x1FF8); (0x1F7A, 0x1F7B, 1, 0x1FEA); (0x1F7C, 0x1F7D, 1, 0x1FFA);
    (0x1FB0, 0x1FB1, 1, 0x1FB8); (0x1FBE, 0x1FBE, 1, 0x399); (0x1FD0, 0x1FD1, 1, 0x1FD8);
    (0x1FE0, 0x1FE1, 1, 0x1FE8); (0x1FE5, 0x1FE5, 1, 0x1FEC); (0x214E, 0x214E, 1, 0x2132);
    (0x2170, 0x217F, 1, 0x2160); (0x2184, 0x2184, 1, 0x2183); (0x24D0, 0x24E9, 1, 0x24B6);
    (0x2C30, 0x2C5F, 1, 0x2C00); (0x2C61, 0x2C61, 1, 0x2C60); (0x2C65, 0x2C65, 1, 0x23A);
    (0x2C66, 0x2C66, 1, 0x23E); (0x2C68, 0x2C6C, 2, 0x2C67); (0x2C73, 0x2C73, 1, 0x2C72);
    (0x2C76, 0x2C76, 1, 0x2C75); (0x2C81, 0x2CE3, 2, 0x2C80); (0x2CEC, 0x2CEE, 2, 0x2CEB);
    (0x2CF3, 0x2CF3, 1, 0x2CF2); (0x2D00, 0x2D25, 1, 0x10A0); (0x2D27, 0x2D27, 1, 0x10C7);
    (0x2D2D, 0x2D2D, 1, 0x10CD); (0xA641, 0xA66D, 2, 0xA640); (0xA681, 0xA69B, 2, 0xA680);
    (0xA723, 0xA72F, 2, 0xA722); (0xA733, 0xA76F, 2, 0xA732); (0xA77A, 0xA77C, 2, 0xA779);
    (0xA77F, 0xA787, 2, 0xA77E); (0xA78C, 0xA78C, 1, 0xA78B); (0xA791, 0xA793, 2, 0xA790);
    (0xA794, 0xA794, 1, 0xA7C4); (0xA797, 0xA7A9, 2, 0xA796); (0xA7B5, 0xA7C3, 2, 0xA7B4);
    (0xA7C8, 0xA7CA, 2, 0xA7C7); (0xA7D1, 0xA7D1, 1, 0xA7D0); (0xA7D7, 0xA7D9, 2, 0xA7D6);
    (0xA7F6, 0xA7F6, 1, 0xA7F5); (0xAB53, 0xAB53, 1, 0xA7B3); (0xAB70, 0xABBF, 1, 0x13A0);
    (0xFF41, 0xFF5A, 1, 0xFF21); (0x10428, 0x1044F, 1, 0x10400); (0x104D8, 0x104FB, 1, 0x104B0);
    (0x10597, 0x105BB, 2, 0x10570); (0x10598, 0x105A0, 2, 0x10571); (0x105A4, 0x105B0, 2, 0x1057D);
    (0x105B4, 0x105B8, 2, 0x1058D); (0x105BC, 0x105BC, 1, 0x10595); (0x10CC0, 0x10CF2, 1, 0x10C80);
    (0x118C0, 0x118DF, 1, 0x118A0); (0x16E60, 0x16E7F, 1, 0x16E40); (0x1E922, 0x1E943, 1, 0x1E900) ].

Definition upper_special : list (N * list N) :=
  [ (0xDF, [0x53; 0x53]); (0x149, [0x2BC; 0x4E]); (0x1F0, [0x4A; 0x30C]);
    (0x390, [0x399; 0x308; 0x301]); (0x3B0, [0x3A5; 0x308; 0x301]); (0x587, [0x535; 0x552]);
    (0x1E96, [0x48; 0x331]); (0x1E97, [0x54; 0x308]); (0x1E98, [0x57; 0x30A]);
    (0x1E99, [0x59; 0x30A]); (0x1E9A, [0x41; 0x2BE]); (0x1F50, [0x3A5; 0x313]);
    (0x1F52, [0x3A5; 0x313; 0x300]); (0x1F54, [0x3A5; 0x313; 0x301]); (0x1F56, [0x3A5; 0x313; 0x342]);
    (0x1F80, [0x1F08; 0x399]); (0x1F81, [0x1F09; 0x399]); (0x1F82, [0x1F0A; 0x399]);
    (0x1F83, [0x1F0B; 0x399]); (0x1F84, [0x1F0C; 0x399]); (0x1F85, [0x1F0D; 0x399]);
    (0x1F86, [0x1F0E; 0x399]); (0x1F87, [0x1F0F; 0x399]); (0x1F88, [0x1F08; 0x399]);
    (0x1F89, [0x1F09; 0x399]); (0x1F8A, [0x1F0A; 0x399]); (0x1F8B, [0x1F0B; 0x399]);
    (0x1F8C, [0x1F0C; 0x399]); (0x1F8D, [0x1F0D; 0x399]); (0x1F8E, [0x1F0E; 0x399]);
    (0x1F8F, [0x1F0F; 0x399]); (0x1F90, [0x1F28; 0x399]); (0x1F91, [0x1F29; 0x399]);
    (0x1F92, [0x1F2A; 0x399]); (0x1F93, [0x1F2B; 0x399]); (0x1F94, [0x1F2C; 0x399]);
    (0x1F95, [0x1F2D; 0x399]); (0x1F96, [0x1F2E; 0x399]); (0x1F97, [0x1F2F; 0x399]);
    (0x1F98, [0x1F28; 0x399]); (0x1F99, [0x1F29; 0x399]); (0x1F9A, [0x1F2A; 0x399]);
    (0x1F9B, [0x1F2B; 0x399]); (0x1F9C, [0x1F2C; 0x399]); (0x1F9D, [0x1F2D; 0x399]);
    (0x1F9E, [0x1F2E; 0x399]); (0x1F9F, [0x1F2F; 0x399]); (0x1FA0, [0x1F68; 0x399]);
    (0x1FA1, [0x1F69; 0x399]); (0x1FA2, [0x1F6A; 0x399]); (0x1FA3, [0x1F6B; 0x399]);
    (0x1FA4, [0x1F6C; 0x399]); (0x1FA5, [0x1F6D; 0x399]); (0x1FA6, [0x1F6E; 0x399]);
    (0x1FA7, [0x1F6F; 0x399]); (0x1FA8, [0x1F68; 0x399]); (0x1FA9, [0x1F69; 0x399]);
    (0x1FAA, [0x1F6A; 0x399]); (0x1FAB, [0x1F6B; 0x399]); (0x1FAC, [0x1F6C; 0x399]);
    (0x1FAD, [0x1F6D; 0x399]); (0x1FAE, [0x1F6E; 0x399]); (0x1FAF, [0x1F6F; 0x399]);
    (0x1FB2, [0x1FBA; 0x399]); (0x1FB3, [0x391; 0x399]); (0x1FB4, [0x386; 0x399]);
    (0x1FB6, [0x391; 0x342]); (0x1FB7, [0x391; 0x342; 0x399]); (0x1FBC, [0x391; 0x399]);
    (0x1FC2, [0x1FCA; 0x399]); (0x1FC3, [0x397; 0x399]); (0x1FC4, [0x389; 0x399]);
    (0x1FC6, [0x397; 0x342]); (0x1FC7, [0x397; 0x342; 0x399]); (0x1FCC, [0x397; 0x399]);
    (0x1FD2, [0x399; 0x308; 0x300]); (0x1FD3, [0x399; 0x308; 0x301]); (0x1FD6, [0x399; 0x342]);
    (0x1FD7, [0x399; 0x308; 0x342]); (0x1FE2, [0x3A5; 0x308; 0x300]); (0x1FE3, [0x3A5; 0x308; 0x301]);
    (0x1FE4, [0x3A1; 0x313]); (0x1FE6, [0x3A5; 0x342]); (0x1FE7, [0x3A5; 0x308; 0x342]);
    (0x1FF2, [0x1FFA; 0x399]); (0x1FF3, [0x3A9; 0x399]); (0x1FF4, [0x38F; 0x399]);
    (0x1FF6, [0x3A9; 0x342]); (0x1FF7, [0x3A9; 0x342; 0x399]); (0x1FFC, [0x3A9; 0x399]);
    (0xFB00, [0x46; 0x46]); (0xFB01, [0x46; 0x49]); (0xFB02, [0x46; 0x4C]);
    (0xFB03, [0x46; 0x46; 0x49]); (0xFB04, [0x46; 0x46; 0x4C]); (0xFB05, [0x53; 0x54]);
    (0xFB06, [0x53; 0x54]); (0xFB13, [0x544; 0x546]); (0xFB14, [0x544; 0x535]);
    (0xFB15, [0x544; 0x53B]); (0xFB16, [0x54E; 0x546]); (0xFB17, [0x544; 0x53D]) ].

Definition in_range (c : N) (r : N * N * N * N) : bool :=
  let '(lo, hi, stride, _) := r in
  (lo <=? c) && (c <=? hi) && ((c - lo) mod stride =? 0).

Definition case_map (special : list (N * list N))
    (ranges : list (N * N * N * N)) (c : N) : list N :=
  match find (fun e => fst e =? c) special with
  | Some (_, image) => image
  | None =>
      match find (in_range c) ranges with
      | Some (lo, _, _, target) => [target + (c - lo)]
      | None => [c]
      end
  end.

Definition lower_cp : N -> list N := case_map lower_special lower_ranges.
Definition upper_cp : N -> list N := case_map upper_special upper_ranges.

Definition lower (s : pystr) : pystr := flat_map lower_cp s.
Definition upper (s : pystr) : pystr := flat_map upper_cp s.

(** ** Configuration *)

Definition WATCH_DIRECTORY : pystr := str "/tmp/audio_to_process".
Definition TRANSCRIPT_DIRECTORY : pystr := str "/tmp/transcripts".

Definition ALLOWED_EXTENSIONS : list pystr :=
  [str ".mp3"; str ".wav"; str ".flac"; str ".m4a"; str ".webm"].

(** ** The extension filter

    The test of [on_created] on a file name:
    [os.path.splitext(filename)[1].lower() in ALLOWED_EXTENSIONS]. *)

Definition file_extension (filename : pystr) : pystr :=
  lower (splitext filename).2.

Definition accept (filename : pystr) : bool :=
  bool_decide (file_extension filename ∈ ALLOWED_EXTENSIONS).

(** ** UTF-8

    The encoder behind [open(..., "w", encoding="utf-8")].  Surrogate code
    points cannot be encoded: the write raises [UnicodeEncodeError]. *)

Definition utf8_cp (c : N) : option bytes :=
  if c <? 0x80 then Some [c]
  else if c <? 0x800 then
    Some [N.lor 0xC0 (N.shiftr c 6); N.lor 0x80 (N.land c 0x3F)]
  else if (0xD800 <=? c) && (c <=? 0xDFFF) then None
  else if c <? 0x10000 then
    Some [N.lor 0xE0 (N.shiftr c 12);
          N.lor 0x80 (N.land (N.shiftr c 6) 0x3F);
          N.lor 0x80 (N.land c 0x3F)]
  else
    Some [N.lor 0xF0 (N.shiftr c 18);
          N.lor 0x80 (N.land (N.shiftr c 12) 0x3F);
          N.lor 0x80 (N.land (N.shiftr c 6) 0x3F);
          N.lor 0x80 (N.land c 0x3F)].

(** ** Exceptions, console lines and effects *)

(** The exceptions the pipeline can meet; all derive from [Exception]. *)
Inductive exn :=
  | FileNotFoundError (path : pystr)
  | OSError (errno : N) (path : pystr)
  | IndexError
  | UnicodeEncodeError (position : nat)
  | ClientError (detail : pystr).

Fixpoint utf8_encode_from (position : nat) (s : pystr) : exn + bytes :=
  match s with
  | [] => inr []
  | c :: s' =>
      match utf8_cp c with
      | None => inl (UnicodeEncodeError position)
      | Some b =>
          match utf8_encode_from (S position) s' with
          | inl e => inl e
          | inr bs => inr (b ++ bs)
          end
      end
  end.

Definition utf8_encode : pystr -> exn + bytes := utf8_encode_from 0.

(** One constructor per [print] call of the script, carrying the values
    interpolated in its f-string. *)
Inductive Line :=
  | LProcessing (filename : pystr)
      (* "\n[Processing] Starting transcription for: {filename}" *)
  | LSuccess (output_path : pystr)
      (* "[Success] Transcript saved to: {output_path}" *)
  | LTranscript (snippet : pystr)
      (* "Transcript: {transcript[:80]}..." *)
  | LError (filename : pystr) (e : exn)
      (* "[Error] Deepgram API failed for {filename}: {e}" *)
  | LNewFile (filename : pystr)
      (* "\n[New File Detected] {filename}" *)
  | LIgnored (filename : pystr).
      (* "[Ignored] File {filename} has an unsupported extension." *)

(** The keyword arguments of [deepgram.listen.v1.media.transcribe_file]. *)
Record TranscribeRequest := {
  request : bytes;
  model : pystr;
  smart_format : bool;
  diarize : bool
}.

(** The call of the script: [request=buffer_data, model="nova-3",
    smart_format=True, diarize=True]. *)
Definition transcribe_request (buffer_data : bytes) : TranscribeRequest :=
  {| request := buffer_data; model := str "nova-3";
     smart_format := true; diarize := true |}.

(** What the pipeline does to its environment, in the order it does it. *)
Inductive Effect :=
  | Print (line : Line)
  | Sleep (seconds : N)
  | OpenRead (path : pystr)
  | Transcribe (req : TranscribeRequest)
  | OpenWrite (path : pystr).

(** ** The transcription client

    The response is read as [response.results.channels[0].alternatives[0]
    .transcript].  The client is external: it answers a request, given the
    requests made before it, with a response or an exception. *)

Record Alternative := { transcript : pystr }.
Record Channel := { alternatives : list Alternative }.
Record Results := { channels : list Channel }.
Record Response := { results : Results }.

Definition DeepgramClient :=
  list TranscribeRequest -> TranscribeRequest -> exn + Response.

(** ** The world

    [files] holds the regular files and their contents.  The three fault
    maps stand for what the operating system may refuse beyond a missing
    file: opening a path for reading, opening it for writing, and
    completing a write (the fault leaves [n] octets of the data written).
    [trace] lists the effects performed so far, oldest first. *)

Record World := {
  files : gmap pystr bytes;
  read_fault : pystr -> option exn;
  open_fault : pystr -> option exn;
  flush_fault : pystr -> option (exn * nat);
  trace : list Effect
}.

Definition set_files (f : gmap pystr bytes) (w : World) : World :=
  {| files := f; read_fault := read_fault w; open_fault := open_fault w;
     flush_fault := flush_fault w; trace := trace w |}.

Definition log (e : Effect) (w : World) : World :=
  {| files := files w; read_fault := read_fault w; open_fault := open_fault w;
     flush_fault := flush_fault w; trace := trace w ++ [e] |}.

Fixpoint requests (t : list Effect) : list TranscribeRequest :=
  match t with
  | [] => []
  | Transcribe r :: t' => r :: requests t'
  | _ :: t' => requests t'
  end.

(** ** State-and-exception monad *)

Inductive Result (A : Type) :=
  | Ok (a : A)
  | Raise (e : exn).
Arguments Ok {A} a.
Arguments Raise {A} e.

Definition M (A : Type) : Type := World -> Result A * World.

Definition ret {A} (a : A) : M A := fun w => (Ok a, w).
Definition raise {A} (e : exn) : M A := fun w => (Raise e, w).

Definition bind {A B} (m : M A) (k : A -> M B) : M B :=
  fun w =>
    match m w with
    | (Ok a, w') => k a w'
    | (Raise e, w') => (Raise e, w')
    end.

(** [try: body  except Exception as e: handler(e)]. *)
Definition try_except {A} (body : M A) (handler : exn -> M A) : M A :=
  fun w =>
    match body w with
    | (Ok a, w') => (Ok a, w')
    | (Raise e, w') => handler e w'
    end.

Declare Scope py_scope.
Delimit Scope py_scope with py.
Notation "x <- m ;; k" := (bind m (fun x => k))
  (at level 100, m at next level, right associativity) : py_scope.
Notation "m ;; k" := (bind m (fun _ => k))
  (at level 100, right associativity) : py_scope.
Local Open Scope py_scope.

(** ** Primitive operations *)

Definition emit (e : Effect) : M unit := fun w => (Ok tt, log e w).
Definition print (l : Line) : M unit := emit (Print l).
Definition sleep (seconds : N) : M unit := emit (Sleep seconds).

(** [with open(path, "rb") as file: file.read()]. *)
Definition read_binary (path : pystr) : M bytes :=
  fun w =>
    let w' := log (OpenRead path) w in
    match read_fault w path with
    | Some e => (Raise e, w')
    | None =>
        match files w !! path with
        | Some data => (Ok data, w')
        | None => (Raise (FileNotFoundError path), w')
        end
    end.

(** [with open(path, "w", encoding="utf-8") as outfile: outfile.write(text)].
    Opening truncates or creates the file before anything is written. *)
Definition write_text (path : pystr) (text : pystr) : M unit :=
  fun w =>
    let w' := log (OpenWrite path) w in
    match open_fault w path with
    | Some e => (Raise e, w')
    | None =>
        match utf8_encode text with
        | inl e => (Raise e, set_files (<[path := []]> (files w')) w')
        | inr data =>
            match flush_fault w path with
            | Some (e, n) =>
                (Raise e, set_files (<[path := take n data]> (files w')) w')
            | None => (Ok tt, set_files (<[path := data]> (files w')) w')
            end
        end
    end.

(** [deepgram.listen.v1.media.transcribe_file(...)]. *)
Definition transcribe_call (deepgram : DeepgramClient)
    (req : TranscribeRequest) : M Response :=
  fun w =>
    let w' := log (Transcribe req) w in
    match deepgram (requests (trace w)) req with
    | inl e => (Raise e, w')
    | inr response => (Ok response, w')
    end.

(** [l[0]]. *)
Definition index0 {A} (l : list A) : M A :=
  match l with
  | x :: _ => ret x
  | [] => raise IndexError
  end.

(** The path the transcript of [filename] is saved to:
    [os.path.join(TRANSCRIPT_DIRECTORY,
    f"{os.path.splitext(filename)[0]}_transcript.txt")]. *)
Definition transcript_path (filename : pystr) : pystr :=
  let transcript_filename :=
    (splitext filename).1 ++ str "_transcript.txt" in
  join TRANSCRIPT_DIRECTORY transcript_filename.

(** ** [transcribe_file]

    The second [except Exception] clause of the script can never be
    selected, the first one matching every [Exception]; it has no
    counterpart here. *)

Definition transcribe_file (filepath : pystr) (deepgram : DeepgramClient)
  : M unit :=
  let filename := basename filepath in
  print (LProcessing filename) ;;
  try_except
    (buffer_data <- read_binary filepath ;;
     response <- transcribe_call deepgram (transcribe_request buffer_data) ;;
     channel <- index0 (channels (results response)) ;;
     alternative <- index0 (alternatives channel) ;;
     let transcript := transcript alternative in
     let output_path := transcript_path filename in
     write_text output_path transcript ;;
     print (LSuccess output_path) ;;
     print (LTranscript (take 80 transcript)))
    (fun e => print (LError filename e)).

(** ** [AudioHandler] *)

Record FileSystemEvent := { is_directory : bool; src_path : pystr }.

Record AudioHandler := { deepgram : DeepgramClient }.

Definition on_created (self : AudioHandler) (event : FileSystemEvent)
  : M unit :=
  if is_directory event then ret tt
  else
    let filepath := src_path event in
    let filename := basename filepath in
    let file_extension := lower (splitext filename).2 in
    if bool_decide (file_extension ∈ ALLOWED_EXTENSIONS) then
      print (LNewFile filename) ;;
      sleep 1 ;;
      transcribe_file filepath (deepgram self)
    else
      print (LIgnored filename).

(** ** Dispatch

    The observer thread started by [run_monitor] takes the queued creation
    events one at a time and calls [on_created] on each; an exception
    leaving the handler would end that thread, and with it the handling of
    every later event. *)

Fixpoint dispatch (handler : AudioHandler) (events : list FileSystemEvent)
  : M unit :=
  match events with
  | [] => ret tt
  | event :: rest => on_created handler event ;; dispatch handler rest
  end.

(** ** Outcomes *)

Inductive Status := Success | Ignored | Error.

(** The status a console line reports, if it reports one. *)
Definition status_of (l : Line) : option Status :=
  match l with
  | LSuccess _ => Some Success
  | LError _ _ => Some Error
  | LIgnored _ => Some Ignored
  | _ => None
  end.

Definition outcomes (t : list Effect) : list Status :=
  omap (fun e => match e with Print l => status_of l | _ => None end) t.

Definition is_transcribe (e : Effect) : bool :=
  match e with Transcribe _ => true | _ => false end.


Definition is_open_read (e : Effect) : bool :=
  match e with OpenRead _ => true | _ => false end.

Definition is_open_write (e : Effect) : bool :=
  match e with OpenWrite _ => true | _ => false end.

(** [w] after performing the effects [t] in turn. *)
Definition logs (t : list Effect) (w : World) : World :=
  fold_left (fun w e => log e w) t w.

(** The effects performed between world [w] and a later world [w']. *)
Definition new_trace (w w' : World) : list Effect :=
  drop (length (trace w)) (trace w').

(** The value of [response.results.channels[0].alternatives[0].transcript],
    when both lists are non-empty. *)
Definition first_transcript (response : Response) : option pystr :=
  match channels (results response) with
  | channel :: _ =>
      match alternatives channel with
      | alternative :: _ => Some (transcript alternative)
      | [] => None
      end
  | [] => None
  end.

(** The step of a run of [transcribe_file filepath deepgram] from world
    [w] at which exception [e] is raised: reading the file, calling the
    client, extracting the transcript, or writing it. *)
Inductive raises_at (filepath : pystr) (deepgram : DeepgramClient)
    (w : World) (e : exn) : Prop :=
  | raises_reading :
      (read_binary filepath w).1 = Raise e ->
      raises_at filepath deepgram w e
  | raises_calling (data : bytes) :
      (read_binary filepath w).1 = Ok data ->
      deepgram (requests (trace w)) (transcribe_request data) = inl e ->
      raises_at filepath deepgram w e
  | raises_extracting (data : bytes) (response : Response) :
      (read_binary filepath w).1 = Ok data ->
      deepgram (requests (trace w)) (transcribe_request data) = inr response ->
      first_transcript response = None ->
      e = IndexError ->
      raises_at filepath deepgram w e
  | raises_writing (data : bytes) (response : Response) (text : pystr) :
      (read_binary filepath w).1 = Ok data ->
      deepgram (requests (trace w)) (transcribe_request data) = inr response ->
      first_transcript response = Some text ->
      (write_text (transcript_path (basename filepath)) text w).1 = Raise e ->
      raises_at filepath deepgram w e.

(** A run that meets no exception: the file is read, the client answers
    with a transcript, and the transcript is written as [encoded]. *)
Definition runs_clean (filepath : pystr) (deepgram : DeepgramClient)
    (w : World) (text : pystr) (encoded : bytes) : Prop :=
  exists data response,
    (read_binary filepath w).1 = Ok data
    /\ deepgram (requests (trace w)) (transcribe_request data) = inr response
    /\ first_transcript response = Some text
    /\ (write_text (transcript_path (basename filepath)) text w).1 = Ok tt
    /\ utf8_encode text = inr encoded.

(** [g] sends to [c] exactly the character [c]. *)
Definition keeps (g : N -> N) (c x : N) : Prop := (g x =? c) = (x =? c).

(** The ASCII code points, and the first code point of an upper-case
    image (all of it, for ASCII). *)
Definition ascii_codes : list N := map N.of_nat (seq 0 128).

Definition upper1 (c : N) : N := hd c (upper_cp c).

(** The characters of the allowed extensions, and the checks run over
    the rows of the case tables: outside ASCII, a lower-case image always
    holds a character that no allowed extension has; an upper-case image
    is never empty and holds nothing below ['A'] (so neither a dot nor a
    separator) but, possibly, the character itself. *)
Definition extension_chars : list N := concat ALLOWED_EXTENSIONS.

Definition ext_char (x : N) : bool := existsb (N.eqb x) extension_chars.

Definition lower_row_ok (r : N * N * N * N) : bool :=
  let '(lo, hi, _, target) := r in
  (hi <? 0x80) || (0x80 <=? target) || ((lo =? hi) && negb (ext_char target)).

Definition lower_special_ok (e : N * list N) : bool :=
  (e.1 <? 0x80) || existsb (fun x => negb (ext_char x)) e.2.

Definition upper_row_ok (r : N * N * N * N) : bool :=
  let '(_, _, _, target) := r in 0x41 <=? target.

Definition upper_special_ok (e : N * list N) : bool :=
  forallb (N.leb 0x41) e.2 && negb (bool_decide (e.2 = [])).

(** The file name of the counterexample to case-insensitivity: [x.], the
    ligature U+FB02 (LATIN SMALL LIGATURE FL), [ac]. *)
Definition ligature_name : pystr := [0x78; 0x2E; 0xFB02; 0x61; 0x63].

(** ** Fixtures for the worked examples *)

Definition world_of (f : gmap pystr bytes) : World :=
  {| files := f; read_fault := fun _ => None; open_fault := fun _ => None;
     flush_fault := fun _ => None; trace := [] |}.

Definition respond (text : pystr) : Response :=
  {| results :=
       {| channels := [ {| alternatives := [ {| transcript := text |} ] |} ] |}
  |}.

Definition stub_returning (text : pystr) : DeepgramClient :=
  fun _ _ => inr (respond text).

Definition created (path : pystr) : FileSystemEvent :=
  {| is_directory := false; src_path := path |}.

Definition created_directory (path : pystr) : FileSystemEvent :=
  {| is_directory := true; src_path := path |}.

Definition watch_dir_with (names : list (pystr * bytes)) : gmap pystr bytes :=
  list_to_map (map (fun nb => (join WATCH_DIRECTORY nb.1, nb.2)) names).

(** A client whose first call fails and whose later calls answer. *)
Definition stub_failing_first (text : pystr) : DeepgramClient :=
  fun history _ =>
    match history with
    | [] => inl (ClientError (str "network error"))
    | _ :: _ => inr (respond text)
    end.

Definition sample_world : World :=
  world_of (watch_dir_with [(str "sample.wav", [0x52; 0x49; 0x46; 0x46])]).

Definition sample_event : FileSystemEvent :=
  created (str "/tmp/audio_to_process/sample.wav").

Definition loud_quiet_world : World :=
  world_of (watch_dir_with [(str "loud.mp3", [0x49; 0x44; 0x33]);
                            (str "quiet.wav", [0x52; 0x49; 0x46; 0x46])]).

Definition loud_event : FileSystemEvent :=
  created (str "/tmp/audio_to_process/loud.mp3").

Definition quiet_event : FileSystemEvent :=
  created (str "/tmp/audio_to_process/quiet.wav").

Definition a_b_world : World :=
  world_of (watch_dir_with [(str "a.wav", [0x0A]); (str "b.wav", [0x0B])]).

Definition a_event : FileSystemEvent :=
  created (str "/tmp/audio_to_process/a.wav").

Definition b_event : FileSystemEvent :=
  created (str "/tmp/audio_to_process/b.wav").

(** ** Further vocabulary *)

(** The first code point of a lower-case image (all of it, for ASCII). *)
Definition lower1 (c : N) : N := hd c (lower_cp c).

(** [s] holds a character other than the dot. *)
Definition has_non_dot (s : pystr) : bool :=
  existsb (fun c => negb (c =? EXTSEP)) s.

(** The code points UTF-8 cannot encode. *)
Definition surrogate (c : N) : bool := (0xD800 <=? c) && (c <=? 0xDFFF).


(** The paths opened for writing, in order. *)
Fixpoint writes (t : list Effect) : list pystr :=
  match t with
  | [] => []
  | OpenWrite p :: t' => p :: writes t'
  | _ :: t' => writes t'
  end.


(** The events that start a run: file events with an accepted name. *)
Definition starts_run (event : FileSystemEvent) : bool :=
  negb (is_directory event) && accept (basename (src_path event)).




(** Further fixtures: an empty audio file, a response without channels,
    a world where [sample.wav] already has a transcript, and two audio
    files with the same stem. *)
Definition empty_file_world : World :=
  world_of (watch_dir_with [(str "silence.wav", [])]).

Definition silence_event : FileSystemEvent :=
  created (str "/tmp/audio_to_process/silence.wav").

Definition stub_no_channels : DeepgramClient :=
  fun _ _ => inr {| results := {| channels := [] |} |}.

Definition transcribed_world : World :=
  world_of (<[str "/tmp/transcripts/sample_transcript.txt" := str "hello world"]>
              (watch_dir_with [(str "sample.wav", [0x52; 0x49; 0x46; 0x46])])).

Definition song_world : World :=
  world_of (watch_dir_with [(str "song.mp3", [0x49; 0x44; 0x33]);
                            (str "song.wav", [0x52; 0x49; 0x46; 0x46])]).

Definition song_mp3 : pystr := str "/tmp/audio_to_process/song.mp3".
Definition song_wav : pystr := str "/tmp/audio_to_process/song.wav".

(** * The monitor process

    [run_monitor] and what it calls.  Beside the [World] of the handler,
    the process sees the directories of the file system, the constructor
    of the client and the observer.  [journal] lists, oldest first, what
    the process has done: the steps of [run_monitor] itself and, in
    between, the effects of the handler.

    The observer thread hands the creation events to [on_created] one at
    a time while the main thread sleeps, until [KeyboardInterrupt]
    reaches the sleeping loop; this is modelled by the list of inputs the
    process receives once the observer is started.  An interrupt arriving
    before that is not modelled.  Paths are absolute and normalised, as
    the two directories of the script are. *)

(** One constructor per [print] call of [run_monitor]. *)
Inductive MonitorLine :=
  | LCritical (e : exn)
      (* "CRITICAL: Failed to initialize Deepgram Client. Please check
         API Key. Error: {e}" *)
  | LCreatedWatch (path : pystr)
      (* "Created monitoring directory: {WATCH_DIRECTORY}" *)
  | LCreatedTranscripts (path : pystr)
      (* "Created transcript output directory: {TRANSCRIPT_DIRECTORY}" *)
  | LRule
      (* "-" * 50 *)
  | LStarting (path : pystr)
      (* "Starting audio file monitor on: {WATCH_DIRECTORY}" *)
  | LHint
      (* "Add new audio files (e.g., .mp3, .wav) to this folder to
         trigger transcription." *)
  | LPressCtrlC
      (* "Press Ctrl+C to stop." *)
  | LStopped.
      (* "\nMonitor stopped." *)

Inductive Step :=
  | Say (line : MonitorLine)
  | Connect (key : pystr)          (* DeepgramClient(api_key=key) *)
  | Mkdir (path : pystr)           (* os.mkdir(path), from os.makedirs *)
  | Schedule (path : pystr) (recursive : bool)
  | Start                          (* observer.start() *)
  | Stop                           (* observer.stop() *)
  | Join                           (* observer.join() *)
  | Handler (e : Effect).          (* an effect of [on_created] *)

Record Host := {
  dirs : gset pystr;
  mkdir_fault : pystr -> option exn;
  connect : pystr -> exn + DeepgramClient;
  start_fault : option exn;
  world : World;
  journal : list Step
}.

Definition set_dirs (d : gset pystr) (h : Host) : Host :=
  {| dirs := d; mkdir_fault := mkdir_fault h; connect := connect h;
     start_fault := start_fault h; world := world h; journal := journal h |}.

Definition set_world (w : World) (h : Host) : Host :=
  {| dirs := dirs h; mkdir_fault := mkdir_fault h; connect := connect h;
     start_fault := start_fault h; world := w; journal := journal h |}.

Definition record (steps : list Step) (h : Host) : Host :=
  {| dirs := dirs h; mkdir_fault := mkdir_fault h; connect := connect h;
     start_fault := start_fault h; world := world h;
     journal := journal h ++ steps |}.

(** The state-and-exception monad over [Host]. *)
Definition HM (A : Type) : Type := Host -> Result A * Host.

Definition hret {A} (a : A) : HM A := fun h => (Ok a, h).

Definition hbind {A B} (m : HM A) (k : A -> HM B) : HM B :=
  fun h =>
    match m h with
    | (Ok a, h') => k a h'
    | (Raise e, h') => (Raise e, h')
    end.

Declare Scope host_scope.
Delimit Scope host_scope with host.
Notation "x <- m ;; k" := (hbind m (fun x => k))
  (at level 100, m at next level, right associativity) : host_scope.
Notation "m ;; k" := (hbind m (fun _ => k))
  (at level 100, right associativity) : host_scope.

Definition step (s : Step) : HM unit := fun h => (Ok tt, record [s] h).
Definition say (l : MonitorLine) : HM unit := step (Say l).

(** ** [os.path] and [os], continued *)

(** [p.rstrip('/')]. *)
Fixpoint rstrip_sep (p : pystr) : pystr :=
  match p with
  | [] => []
  | c :: p' =>
      match rstrip_sep p' with
      | [] => if c =? SEP then [] else [c]
      | r => c :: r
      end
  end.

(** [os.path.split(p)]: [i = p.rfind('/') + 1; head, tail = p[:i], p[i:]];
    the head loses its trailing separators unless it is made of
    separators only. *)
Definition posix_split (p : pystr) : pystr * pystr :=
  let i := (rfind SEP p + 1)%Z in
  let head := slice_to p i in
  let tail := slice_from p i in
  (if bool_decide (head <> []) && negb (forallb (N.eqb SEP) head)
   then rstrip_sep head else head,
   tail).

(** [os.path.exists(path)]: the path is a directory or a regular file. *)
Definition path_exists (h : Host) (path : pystr) : bool :=
  bool_decide (path ∈ dirs h)
  || bool_decide (is_Some (files (world h) !! path)).

Definition EEXIST : N := 17.
Definition ENOTDIR : N := 20.

(** [FileExistsError]: an [OSError] whose [errno] is [EEXIST]. *)
Definition is_file_exists_error (e : exn) : bool :=
  match e with
  | OSError errno _ => errno =? EEXIST
  | _ => false
  end.

(** [os.mkdir(path)]: refused if the path exists ([FileExistsError], an
    [OSError] with [errno] 17) or if its parent is not a directory. *)
Definition mkdir (path : pystr) : HM unit :=
  fun h =>
    let h' := record [Mkdir path] h in
    match mkdir_fault h path with
    | Some e => (Raise e, h')
    | None =>
        if path_exists h path then (Raise (OSError EEXIST path), h')
        else
          let parent := (posix_split path).1 in
          if bool_decide (parent ∈ dirs h)
          then (Ok tt, set_dirs (dirs h ∪ {[path]}) h')
          else if bool_decide (is_Some (files (world h) !! parent))
               then (Raise (OSError ENOTDIR path), h')
               else (Raise (FileNotFoundError path), h')
    end.

(** [os.makedirs(name)] with [exist_ok=False]: the missing ancestors are
    made first, a [FileExistsError] from that being passed over; every
    error of the final [mkdir] is raised.  The recursion is on the head of
    the path, which is shorter than the path: [fuel] bounds its depth and
    [length name] is enough. *)
Fixpoint makedirs_fuel (fuel : nat) (name : pystr) : HM unit :=
  fun h =>
    let '(head, tail) := posix_split name in
    let '(head, tail) :=
      if bool_decide (tail = []) then posix_split head else (head, tail) in
    let make_it := mkdir name in
    let after_head h' :=
      if bool_decide (tail = str ".") then (Ok tt, h') else make_it h' in
    if bool_decide (head <> []) && bool_decide (tail <> [])
       && negb (path_exists h head)
    then
      match fuel with
      | O => make_it h
      | S fuel' =>
          match makedirs_fuel fuel' head h with
          | (Ok _, h') => after_head h'
          | (Raise e, h') =>
              if is_file_exists_error e then after_head h'
              else (Raise e, h')
          end
      end
    else make_it h.

Definition makedirs (name : pystr) : HM unit :=
  makedirs_fuel (length name) name.

(** ** [run_monitor] *)

(** What the process receives once the observer is started. *)
Inductive Input :=
  | Deliver (event : FileSystemEvent)   (* a creation event is dispatched *)
  | Interrupt.                          (* KeyboardInterrupt in the loop *)

(** How the call of [run_monitor] stands after the inputs: it has
    returned, or it is still in its loop. *)
Inductive Exit := Returned | Watching.

(** The observer thread calls [event_handler.on_created(event)]. *)
Definition handle (event_handler : AudioHandler) (event : FileSystemEvent)
  : HM unit :=
  fun h =>
    let (r, w') := on_created event_handler event (world h) in
    (r, record (map Handler (new_trace (world h) w')) (set_world w' h)).

(** [observer.start()], the loop [while True: time.sleep(1)] and what
    follows [KeyboardInterrupt]: [observer.stop()], [observer.join()] and
    the last line. *)
Fixpoint watch (event_handler : AudioHandler) (inputs : list Input)
  : HM Exit :=
  match inputs with
  | [] => hret Watching
  | Deliver event :: rest =>
      (handle event_handler event ;; watch event_handler rest)%host
  | Interrupt :: _ =>
      (step Stop ;; step Join ;; say LStopped ;; hret Returned)%host
  end.

Definition observer_start : HM unit :=
  fun h =>
    match start_fault h with
    | Some e => (Raise e, record [Start] h)
    | None => (Ok tt, record [Start] h)
    end.

(** [DeepgramClient(api_key=api_key)] inside [try ... except Exception]. *)
Definition new_client (api_key : pystr) : HM (exn + DeepgramClient) :=
  fun h => (Ok (connect h api_key), record [Connect api_key] h).

(** [if not os.path.exists(d): os.makedirs(d); print(...)]. *)
Definition ensure_directory (d : pystr) (line : MonitorLine) : HM unit :=
  fun h =>
    if negb (path_exists h d) then (makedirs d ;; say line)%host h
    else hret tt h.

(** [run_monitor()], for the value [api_key] of the global of that name
    and the inputs received in the loop. *)
Definition run_monitor (api_key : pystr) (inputs : list Input) : HM Exit :=
  (client <- new_client api_key ;;
   match client with
   | inl e => say (LCritical e) ;; hret Returned
   | inr deepgram =>
       ensure_directory WATCH_DIRECTORY (LCreatedWatch WATCH_DIRECTORY) ;;
       ensure_directory TRANSCRIPT_DIRECTORY
         (LCreatedTranscripts TRANSCRIPT_DIRECTORY) ;;
       let event_handler := {| deepgram := deepgram |} in
       step (Schedule WATCH_DIRECTORY false) ;;
       say LRule ;;
       say (LStarting WATCH_DIRECTORY) ;;
       say LHint ;;
       say LPressCtrlC ;;
       say LRule ;;
       observer_start ;;
       watch event_handler inputs
   end)%host.

(** The inputs up to the first interrupt. *)
Fixpoint before_interrupt (inputs : list Input) : list FileSystemEvent :=
  match inputs with
  | Deliver event :: rest => event :: before_interrupt rest
  | _ => []
  end.

Definition interrupted (inputs : list Input) : bool :=
  existsb (fun i => match i with Interrupt => true | _ => false end) inputs.

Definition is_mkdir (s : Step) : bool :=
  match s with Mkdir _ => true | _ => false end.

Definition is_handler (s : Step) : bool :=
  match s with Handler _ => true | _ => false end.

(** The step prints a line that satisfies [Q]. *)
Definition says (Q : MonitorLine -> bool) (s : Step) : bool :=
  match s with Say line => Q line | _ => false end.

Definition is_created_watch (l : MonitorLine) : bool :=
  match l with LCreatedWatch _ => true | _ => false end.

Definition is_created_transcripts (l : MonitorLine) : bool :=
  match l with LCreatedTranscripts _ => true | _ => false end.

Definition is_created_line (s : Step) : bool :=
  says is_created_watch s || says is_created_transcripts s.

(** The steps of [run_monitor] between the bootstrap of the directories
    and the loop. *)
Definition banner : list Step :=
  [Schedule WATCH_DIRECTORY false; Say LRule; Say (LStarting WATCH_DIRECTORY);
   Say LHint; Say LPressCtrlC; Say LRule; Start].

(** The steps taken between [h] and a later [h']. *)
Definition new_steps (h h' : Host) : list Step :=
  drop (length (journal h)) (journal h').

(** [h'] has the oracles of [h]. *)
Definition same_oracles (h h' : Host) : Prop :=
  connect h' = connect h
  /\ mkdir_fault h' = mkdir_fault h
  /\ start_fault h' = start_fault h.

Definition ROOT : pystr := [SEP].
Definition TMP : pystr := str "/tmp".

(** A process on a bare system: only [/] and [/tmp] exist. *)
Definition bare_host (client : exn + DeepgramClient) (w : World) : Host :=
  {| dirs := {[ ROOT; TMP ]}; mkdir_fault := fun _ => None;
     connect := fun _ => client; start_fault := None;
     world := w; journal := [] |}.


Definition is_boot_step (s : Step) : bool := negb (is_handler s).

Definition tail_of_watch (inputs : list Input) : list Step :=
  if interrupted inputs then [Stop; Join; Say LStopped] else [].

(** The host after [os.makedirs(name)] for a missing [name] under
    [/tmp]. *)
Definition made_under_tmp (name : pystr) (h : Host) : Host :=
  let h1 :=
    if bool_decide (TMP ∈ dirs h) then h
    else set_dirs (dirs h ∪ {[TMP]}) (record [Mkdir TMP] h) in
  set_dirs (dirs h1 ∪ {[name]}) (record [Mkdir name] h1).

(** A system where a regular file sits at the path of the watch
    directory and the transcript directory is there. *)
Definition occupied_host (client : exn + DeepgramClient) : Host :=
  {| dirs := {[ ROOT; TMP; TRANSCRIPT_DIRECTORY ]};
     mkdir_fault := fun _ => None;
     connect := fun _ => client; start_fault := None;
     world := world_of {[ WATCH_DIRECTORY := [] ]}; journal := [] |}.

(** A system where only [/] exists. *)
Definition root_only_host (client : exn + DeepgramClient) (w : World) : Host :=
  {| dirs := {[ ROOT ]}; mkdir_fault := fun _ => None;
     connect := fun _ => client; start_fault := None;
     world := w; journal := [] |}.

Definition EACCES : N := 13.

(** A system where [/] and [/tmp] exist and every [mkdir] is refused. *)
Definition readonly_host (client : exn + DeepgramClient) (w : World) : Host :=
  {| dirs := {[ ROOT; TMP ]}; mkdir_fault := fun p => Some (OSError EACCES p);
     connect := fun _ => client; start_fault := None;
     world := w; journal := [] |}.

(** * Properties *)

(** ** Traces *)

Lemma new_trace_app w w' t : trace w' = trace w ++ t -> new_trace w w' = t.
Proof. intros H. unfold new_trace. rewrite H. apply drop_app_length. Qed.

Lemma new_trace_refl w : new_trace w w = [].
Proof. apply new_trace_app. now rewrite app_nil_r. Qed.

Lemma trace_logs t w : trace (logs t w) = trace w ++ t.
Proof.
  revert w. induction t as [|e t IH]; intros w; cbn.
  - now rewrite app_nil_r.
  - unfold logs in IH. rewrite IH. cbn. now rewrite <- app_assoc.
Qed.

Lemma new_trace_logs t w : new_trace w (logs t w) = t.
Proof. apply new_trace_app, trace_logs. Qed.

Lemma files_logs t w : files (logs t w) = files w.
Proof.
  revert w. induction t as [|e t IH]; intros w; [reflexivity |].
  exact (IH (log e w)).
Qed.

Lemma faults_logs t w :
  read_fault (logs t w) = read_fault w
  /\ open_fault (logs t w) = open_fault w
  /\ flush_fault (logs t w) = flush_fault w.
Proof.
  revert w. induction t as [|e t IH]; intros w; [now repeat split |].
  exact (IH (log e w)).
Qed.

Lemma read_binary_logs t w path :
  (read_binary path (logs t w)).1 = (read_binary path w).1.
Proof.
  unfold read_binary. destruct (faults_logs t w) as (-> & _ & _).
  rewrite files_logs. destruct (read_fault w path); [reflexivity |].
  now destruct (files w !! path).
Qed.

Lemma write_text_logs t w path text :
  (write_text path text (logs t w)).1 = (write_text path text w).1.
Proof.
  unfold write_text. destruct (faults_logs t w) as (_ & -> & ->).
  destruct (open_fault w path); [reflexivity |].
  destruct (utf8_encode text); [reflexivity |].
  now destruct (flush_fault w path) as [[e n]|].
Qed.

Lemma requests_app t1 t2 : requests (t1 ++ t2) = requests t1 ++ requests t2.
Proof.
  induction t1 as [|e t1 IH]; [reflexivity |].
  destruct e; cbn; now rewrite IH.
Qed.

(** Unfolds the monadic operations of a run and simplifies the projections
    of the worlds it builds. *)
Ltac run :=
  unfold transcribe_file, try_except, bind, print, sleep, emit, read_binary,
    transcribe_call, write_text, index0, ret, raise;
  cbn [fst snd files read_fault open_fault flush_fault trace log set_files].

(** Replays a run along the equations known for its steps. *)
Ltac replay :=
  run;
  repeat (rewrite ?requests_app; cbn [requests]; rewrite ?app_nil_r;
          match goal with
          | H : ?x = _ |- context [match ?x with _ => _ end] => rewrite H
          end; run).

(** ** Events that start no run *)

Lemma on_created_directory self event w :
  is_directory event = true -> on_created self event w = (Ok tt, w).
Proof. intros H. unfold on_created. now rewrite H. Qed.

Lemma on_created_ignored self event w :
  is_directory event = false ->
  accept (basename (src_path event)) = false ->
  on_created self event w
  = (Ok tt, logs [Print (LIgnored (basename (src_path event)))] w).
Proof.
  intros Hfile Hrej. unfold on_created, accept, file_extension in *.
  now rewrite Hfile, Hrej.
Qed.

(** C10: on a directory-creation event [on_created] returns at once and
    leaves the world as it found it: nothing is printed (no Success, Error
    or Ignored line), the client is not called and no file is touched;
    whereas a file event with a rejected name does print an Ignored line. *)
Theorem on_created_directory_silent :
  forall (self : AudioHandler) (event : FileSystemEvent) (w : World),
    is_directory event = true ->
    on_created self event w = (Ok tt, w)
    /\ new_trace w (on_created self event w).2 = []
    /\ outcomes (new_trace w (on_created self event w).2) = []
    /\ (forall event',
          is_directory event' = false ->
          accept (basename (src_path event')) = false ->
          outcomes (new_trace w (on_created self event' w).2) = [Ignored]).
Proof.
  intros self event w Hdir.
  rewrite (on_created_directory _ _ _ Hdir). cbn [snd].
  rewrite new_trace_refl. repeat split.
  intros event' Hfile Hrej.
  rewrite (on_created_ignored _ _ _ Hfile Hrej). cbn [snd].
  now rewrite new_trace_logs.
Qed.

Lemma on_created_directory_silent_witness :
  is_directory (created_directory (str "/tmp/audio_to_process/album.mp3")) = true
  /\ on_created {| deepgram := stub_returning (str "hello world") |}
       (created_directory (str "/tmp/audio_to_process/album.mp3"))
       (world_of ∅)
     = (Ok tt, world_of ∅).
Proof.
  split; [reflexivity |].
  apply (on_created_directory_silent
           {| deepgram := stub_returning (str "hello world") |}
           (created_directory (str "/tmp/audio_to_process/album.mp3"))
           (world_of ∅)).
  reflexivity.
Defined.



(** ** [rfind] and the path helpers *)

Lemma rfind_ge c p : (-1 <= rfind c p)%Z.
Proof.
  induction p as [|x p IH]; cbn; [lia |].
  destruct (0 <=? rfind c p)%Z eqn:E; [apply Z.leb_le in E; lia |].
  destruct (x =? c); lia.
Qed.

Lemma rfind_lt c p : (rfind c p < Z.of_nat (length p))%Z.
Proof.
  induction p as [|x p IH]; cbn [rfind length]; [lia |].
  destruct (0 <=? rfind c p)%Z; [lia |].
  destruct (x =? c); lia.
Qed.

Lemma rfind_absent c p : c ∉ p -> rfind c p = (-1)%Z.
Proof.
  induction p as [|x p IH]; intros Hc; cbn; [reflexivity |].
  apply not_elem_of_cons in Hc as [Hx Hp]. rewrite (IH Hp). cbn.
  destruct (N.eqb_spec x c); congruence.
Qed.

Lemma rfind_present c p : c ∈ p -> (0 <= rfind c p)%Z.
Proof.
  induction p as [|x p IH]; intros Hc; [inversion Hc |]. cbn.
  destruct (0 <=? rfind c p)%Z eqn:E; [apply Z.leb_le in E; lia |].
  apply elem_of_cons in Hc as [-> | Hc].
  - rewrite N.eqb_refl. lia.
  - apply IH in Hc. apply Z.leb_gt in E. lia.
Qed.

(** Nothing after the last occurrence is an occurrence. *)
Lemma rfind_after c p : c ∉ drop (Z.to_nat (rfind c p + 1)) p.
Proof.
  induction p as [|x p IH]; [cbn; apply not_elem_of_nil |].
  cbn [rfind]. destruct (0 <=? rfind c p)%Z eqn:E.
  - apply Z.leb_le in E.
    replace (Z.to_nat (rfind c p + 1 + 1)) with (S (Z.to_nat (rfind c p + 1)))
      by lia.
    exact IH.
  - apply Z.leb_gt in E. pose proof (rfind_ge c p) as Hge.
    assert (Hm : rfind c p = (-1)%Z) by lia.
    rewrite Hm in IH. cbn in IH.
    destruct (N.eqb_spec x c) as [_ | Hne]; cbn.
    + exact IH.
    + apply not_elem_of_cons. split; [congruence | exact IH].
Qed.

Lemma basename_no_sep p : SEP ∉ basename p.
Proof. unfold basename, slice_from. apply rfind_after. Qed.

(** The two parts returned by [splitext] make up its argument. *)
Lemma splitext_app p : (splitext p).1 ++ (splitext p).2 = p.
Proof.
  unfold splitext, slice_to, slice_from.
  destruct (_ && _); cbn [fst snd]; [apply take_drop | apply app_nil_r].
Qed.

Lemma splitext_no_dot p : EXTSEP ∉ p -> splitext p = (p, []).
Proof.
  intros H. unfold splitext. rewrite (rfind_absent _ _ H).
  pose proof (rfind_ge SEP p) as Hge.
  destruct (rfind SEP p <? -1)%Z eqn:E; [apply Z.ltb_lt in E; lia |].
  reflexivity.
Qed.

Lemma splitext_stem_no_sep p : SEP ∉ p -> SEP ∉ (splitext p).1.
Proof.
  intros H Hin. apply H. rewrite <- (splitext_app p).
  apply elem_of_app. now left.
Qed.

(** A character-wise renaming that keeps the separator and the dot where
    they are commutes with [rfind] and [splitext]. *)
Section Renaming.
Variable g : N -> N.

Lemma rfind_map c p : Forall (keeps g c) p -> rfind c (map g p) = rfind c p.
Proof.
  induction 1 as [|x p Hx _ IH]; cbn; [reflexivity |].
  now rewrite IH, Hx.
Qed.

Lemma existsb_not_dot_map p :
  Forall (keeps g EXTSEP) p ->
  existsb (fun c => negb (c =? EXTSEP)) (map g p)
  = existsb (fun c => negb (c =? EXTSEP)) p.
Proof.
  induction 1 as [|x p Hx _ IH]; cbn; [reflexivity |].
  now rewrite IH, Hx.
Qed.

Lemma splitext_map p :
  Forall (keeps g SEP) p -> Forall (keeps g EXTSEP) p ->
  splitext (map g p) = (map g (splitext p).1, map g (splitext p).2).
Proof.
  intros Hs Hd. unfold splitext, slice, slice_to, slice_from.
  rewrite (rfind_map _ _ Hs), (rfind_map _ _ Hd).
  rewrite skipn_map, firstn_map, existsb_not_dot_map
    by (apply Forall_take, Forall_drop, Hd).
  destruct (_ && _); cbn [fst snd]; [| reflexivity].
  now rewrite firstn_map, skipn_map.
Qed.
End Renaming.

(** ** Case mapping on ASCII *)

Lemma ascii_codes_complete c : c < 0x80 -> In c ascii_codes.
Proof.
  intros H. unfold ascii_codes. rewrite <- (N2Nat.id c).
  apply in_map, in_seq. lia.
Qed.

Lemma ascii_forall (chk : N -> bool) :
  forallb chk ascii_codes = true -> forall c, c < 0x80 -> chk c = true.
Proof.
  intros H c Hc. rewrite forallb_forall in H. apply H, ascii_codes_complete, Hc.
Qed.

Lemma upper_cp_ascii c : c < 0x80 -> upper_cp c = [upper1 c].
Proof.
  intros H.
  apply (ascii_forall (fun c => bool_decide (upper_cp c = [upper1 c]))) in H;
    [now apply bool_decide_eq_true in H | now vm_compute].
Qed.

Lemma upper1_keeps c x : (c = SEP \/ c = EXTSEP) -> x < 0x80 -> keeps upper1 c x.
Proof.
  intros Hc H. unfold keeps.
  apply (ascii_forall
           (fun x => bool_decide ((upper1 x =? SEP) = (x =? SEP)
                                  /\ (upper1 x =? EXTSEP) = (x =? EXTSEP)))) in H;
    [| now vm_compute].
  apply bool_decide_eq_true in H as [Hs Hd]. now destruct Hc as [-> | ->].
Qed.

Lemma lower_cp_upper1 c : c < 0x80 -> lower_cp (upper1 c) = lower_cp c.
Proof.
  intros H.
  apply (ascii_forall
           (fun c => bool_decide (lower_cp (upper1 c) = lower_cp c))) in H;
    [now apply bool_decide_eq_true in H | now vm_compute].
Qed.

Lemma upper_ascii p : Forall (fun c => c < 0x80) p -> upper p = map upper1 p.
Proof.
  induction 1 as [|c p Hc _ IH]; [reflexivity |].
  unfold upper in *. cbn. now rewrite IH, (upper_cp_ascii c Hc).
Qed.

Lemma lower_upper_ascii p :
  Forall (fun c => c < 0x80) p -> lower (map upper1 p) = lower p.
Proof.
  induction 1 as [|c p Hc _ IH]; [reflexivity |].
  unfold lower in *. cbn. now rewrite IH, (lower_cp_upper1 c Hc).
Qed.

Lemma file_extension_upper_ascii f :
  Forall (fun c => c < 0x80) f ->
  file_extension (upper f) = file_extension f.
Proof.
  intros H. unfold file_extension.
  rewrite (upper_ascii f H), splitext_map.
  - cbn [snd]. apply lower_upper_ascii.
    rewrite <- (splitext_app f) in H. now apply Forall_app in H as [_ H].
  - eapply Forall_impl; [exact H |]. intros x Hx. apply upper1_keeps; auto.
  - eapply Forall_impl; [exact H |]. intros x Hx. apply upper1_keeps; auto.
Qed.

(** ** Case mapping outside ASCII *)

Lemma case_map_cases special ranges c :
  (exists image, In (c, image) special /\ case_map special ranges c = image)
  \/ (exists lo hi stride target,
        In (lo, hi, stride, target) ranges /\ lo <= c <= hi
        /\ case_map special ranges c = [target + (c - lo)])
  \/ case_map special ranges c = [c].
Proof.
  unfold case_map.
  destruct (find _ special) as [[k image]|] eqn:Hs.
  { left. exists image. apply find_some in Hs as [Hin Hk].
    apply N.eqb_eq in Hk. cbn in Hk. subst k. auto. }
  destruct (find _ ranges) as [[[[lo hi] stride] target]|] eqn:Hr; [| auto].
  right; left. exists lo, hi, stride, target.
  apply find_some in Hr as [Hin Hc]. unfold in_range in Hc.
  apply andb_prop in Hc as [[Hlo%N.leb_le Hhi%N.leb_le]%andb_prop _]. auto.
Qed.

Lemma ext_char_ascii x : ext_char x = true -> x < 0x80.
Proof.
  unfold ext_char. intros (y & Hy & Hxy%N.eqb_eq)%existsb_exists. subst y.
  assert (Hall : Forall (fun y => y < 0x80) extension_chars)
    by (apply (bool_decide_unpack _); now vm_compute).
  rewrite List.Forall_forall in Hall. now apply Hall.
Qed.

(** Outside ASCII a lower-case image holds a character that no allowed
    extension has. *)
Lemma lower_cp_nonascii c :
  0x80 <= c -> exists x, In x (lower_cp c) /\ ext_char x = false.
Proof.
  intros Hc.
  destruct (case_map_cases lower_special lower_ranges c)
    as [(image & Hin & Himage)
       | [(lo & hi & stride & target & Hin & [Hlo Hhi] & Himage) | Himage]];
    unfold lower_cp; rewrite Himage.
  - assert (Hok : forallb lower_special_ok lower_special = true)
      by now vm_compute.
    rewrite forallb_forall in Hok. apply Hok in Hin.
    unfold lower_special_ok in Hin. cbn [fst snd] in Hin.
    apply orb_prop in Hin as [Hlt%N.ltb_lt | (x & Hx & Hbad)%existsb_exists];
      [lia |].
    exists x. split; [exact Hx |]. now apply negb_true_iff in Hbad.
  - assert (Hok : forallb lower_row_ok lower_ranges = true) by now vm_compute.
    rewrite forallb_forall in Hok. apply Hok in Hin.
    unfold lower_row_ok in Hin.
    exists (target + (c - lo)). split; [now left |].
    apply orb_prop in Hin as [[Hlt%N.ltb_lt | Hge%N.leb_le]%orb_prop
                              | [Heq%N.eqb_eq Hbad%negb_true_iff]%andb_prop].
    + lia.
    + destruct (ext_char (target + (c - lo))) eqn:E; [| reflexivity].
      apply ext_char_ascii in E. lia.
    + replace (target + (c - lo)) with target by lia. exact Hbad.
  - exists c. split; [now left |].
    destruct (ext_char c) eqn:E; [| reflexivity].
    apply ext_char_ascii in E. lia.
Qed.

(** An upper-case image is never empty and holds nothing below ['A']
    but, possibly, the character itself. *)
Lemma upper_cp_image c :
  upper_cp c <> [] /\ forall x, In x (upper_cp c) -> x = c \/ 0x41 <= x.
Proof.
  destruct (case_map_cases upper_special upper_ranges c)
    as [(image & Hin & Himage)
       | [(lo & hi & stride & target & Hin & [Hlo Hhi] & Himage) | Himage]];
    unfold upper_cp; rewrite Himage.
  - assert (Hok : forallb upper_special_ok upper_special = true)
      by now vm_compute.
    rewrite forallb_forall in Hok. apply Hok in Hin.
    unfold upper_special_ok in Hin. cbn [fst snd] in Hin.
    apply andb_prop in Hin as [Hall Hne%negb_true_iff%bool_decide_eq_false].
    split; [exact Hne |]. intros x Hx. right.
    rewrite forallb_forall in Hall. now apply N.leb_le, Hall.
  - assert (Hok : forallb upper_row_ok upper_ranges = true) by now vm_compute.
    rewrite forallb_forall in Hok. apply Hok in Hin.
    unfold upper_row_ok in Hin. apply N.leb_le in Hin.
    split; [discriminate |]. intros x [<- | []]. right. lia.
  - split; [discriminate |]. intros x [<- | []]. now left.
Qed.

Lemma upper_cp_sep : upper_cp SEP = [SEP] /\ upper_cp EXTSEP = [EXTSEP].
Proof. now vm_compute. Qed.

Lemma upper_cp_keeps c x :
  c = SEP \/ c = EXTSEP -> In c (upper_cp x) -> x = c.
Proof.
  intros Hc Hin. destruct (upper_cp_image x) as [_ H].
  destruct (H c Hin) as [-> | Hge]; [reflexivity |].
  destruct Hc as [-> | ->]; vm_compute in Hge; now destruct Hge.
Qed.

(** ** Splitting and upper-casing *)

Lemma rfind_app_absent c a b : c ∉ b -> rfind c (a ++ b) = rfind c a.
Proof.
  intros Hb. induction a as [|x a IH]; cbn; [now apply rfind_absent |].
  now rewrite IH.
Qed.

Lemma rfind_app_present c a b :
  c ∈ b -> rfind c (a ++ b) = (Z.of_nat (length a) + rfind c b)%Z.
Proof.
  intros Hb. pose proof (rfind_present c b Hb) as Hge.
  induction a as [|x a IH]; [cbn; lia |].
  cbn [app rfind length]. rewrite IH.
  destruct (0 <=? Z.of_nat (length a) + rfind c b)%Z eqn:E;
    [lia | apply Z.leb_gt in E; lia].
Qed.

Lemma rfind_cons_absent c p : c ∉ p -> rfind c (c :: p) = 0%Z.
Proof. intros H. cbn. rewrite (rfind_absent _ _ H). cbn. now rewrite N.eqb_refl. Qed.

(** The character at the index found is the one sought. *)
Lemma rfind_split c p :
  (0 <= rfind c p)%Z ->
  drop (Z.to_nat (rfind c p)) p = c :: drop (Z.to_nat (rfind c p + 1)) p.
Proof.
  induction p as [|x p IH]; cbn [rfind]; [lia |].
  destruct (0 <=? rfind c p)%Z eqn:E.
  - apply Z.leb_le in E. intros _.
    replace (Z.to_nat (rfind c p + 1)) with (S (Z.to_nat (rfind c p))) by lia.
    replace (Z.to_nat (rfind c p + 1 + 1))
      with (S (Z.to_nat (rfind c p + 1))) by lia.
    cbn. now apply IH.
  - destruct (N.eqb_spec x c) as [-> | _]; [reflexivity | lia].
Qed.

Lemma basename_absent p : SEP ∉ p -> basename p = p.
Proof. intros H. unfold basename, slice_from. now rewrite (rfind_absent _ _ H). Qed.

Lemma basename_app_absent a b : SEP ∉ b -> basename (a ++ b) = basename a ++ b.
Proof.
  intros H. unfold basename, slice_from. rewrite (rfind_app_absent _ _ _ H).
  pose proof (rfind_lt SEP a). pose proof (rfind_ge SEP a).
  rewrite drop_app_le by lia. reflexivity.
Qed.

Lemma basename_app_present a b : SEP ∈ b -> basename (a ++ b) = basename b.
Proof.
  intros H. unfold basename, slice_from. rewrite (rfind_app_present _ _ _ H).
  pose proof (rfind_present SEP b H).
  replace (Z.to_nat (Z.of_nat (length a) + rfind SEP b + 1))
    with (length a + Z.to_nat (rfind SEP b + 1))%nat by lia.
  now rewrite drop_app_add.
Qed.

(** A dot followed by neither dot nor separator, after a stem whose last
    component is not made of dots only, is the extension. *)
Lemma splitext_intro stem e :
  EXTSEP ∉ e -> SEP ∉ e ->
  existsb (fun c => negb (c =? EXTSEP)) (basename stem) = true ->
  splitext (stem ++ EXTSEP :: e) = (stem, EXTSEP :: e).
Proof.
  intros Hdot Hsep Hstem. unfold splitext, slice, slice_to, slice_from.
  rewrite (rfind_app_present EXTSEP) by now left.
  rewrite (rfind_cons_absent _ _ Hdot), Z.add_0_r.
  rewrite (rfind_app_absent SEP)
    by (apply not_elem_of_cons; split; [discriminate | exact Hsep]).
  pose proof (rfind_lt SEP stem) as Hlt. pose proof (rfind_ge SEP stem) as Hge.
  destruct (rfind SEP stem <? Z.of_nat (length stem))%Z eqn:E;
    [| apply Z.ltb_ge in E; lia].
  rewrite Nat2Z.id, drop_app_le by lia.
  rewrite take_app_length' by (rewrite length_drop; lia).
  unfold basename, slice_from in Hstem. rewrite Hstem. cbn [andb].
  now rewrite take_app_length, drop_app_length.
Qed.

(** Conversely, a non-empty extension is such a dot and what follows. *)
Lemma splitext_elim f :
  (splitext f).2 <> [] ->
  exists e,
    (splitext f).2 = EXTSEP :: e /\ (EXTSEP ∉ e) /\ (SEP ∉ e)
    /\ existsb (fun c => negb (c =? EXTSEP)) (basename (splitext f).1) = true.
Proof.
  unfold splitext, slice, slice_to, slice_from.
  destruct (_ && _) eqn:E; cbn [fst snd]; [intros _ | congruence].
  apply andb_prop in E as [Hlt%Z.ltb_lt Hstem].
  pose proof (rfind_ge SEP f) as Hge.
  assert (Hd : (0 <= rfind EXTSEP f)%Z) by lia.
  pose proof (rfind_split _ _ Hd) as Hsplit.
  exists (drop (Z.to_nat (rfind EXTSEP f + 1)) f).
  assert (Hsep : SEP ∉ drop (Z.to_nat (rfind EXTSEP f)) f).
  { intros Hin. apply (rfind_after SEP f).
    replace (Z.to_nat (rfind EXTSEP f))
      with (Z.to_nat (rfind SEP f + 1)
            + (Z.to_nat (rfind EXTSEP f) - Z.to_nat (rfind SEP f + 1)))%nat
      in Hin by lia.
    rewrite <- drop_drop in Hin. exact (subseteq_drop _ _ _ Hin). }
  split; [exact Hsplit |]. split; [apply rfind_after |].
  split; [rewrite Hsplit in Hsep; now apply not_elem_of_cons in Hsep |].
  unfold basename, slice_from.
  assert (Hs : rfind SEP (take (Z.to_nat (rfind EXTSEP f)) f) = rfind SEP f).
  { rewrite <- (rfind_app_absent SEP _ (drop (Z.to_nat (rfind EXTSEP f)) f) Hsep).
    now rewrite take_drop. }
  rewrite Hs, skipn_firstn_comm. exact Hstem.
Qed.

(** A character-wise mapping to strings that keeps the separator where it
    is commutes with [basename]. *)
Section Mapping.
Variable up : N -> list N.
Hypothesis up_sep : up SEP = [SEP].
Hypothesis up_other : forall c, In SEP (up c) -> c = SEP.

Lemma flat_map_sep p : SEP ∈ flat_map up p <-> SEP ∈ p.
Proof.
  rewrite !list_elem_of_In, in_flat_map. split.
  - intros (c & Hc & Hin). now rewrite <- (up_other c Hin).
  - intros H. exists SEP. split; [exact H |]. rewrite up_sep. now left.
Qed.

Lemma basename_flat_map p :
  basename (flat_map up p) = flat_map up (basename p).
Proof.
  induction p as [|x p IH]; [reflexivity |].
  cbn [flat_map]. change (x :: p) with ([x] ++ p).
  destruct (decide (SEP ∈ p)) as [Hin | Hout].
  - rewrite (basename_app_present [x] p Hin).
    rewrite basename_app_present by (apply flat_map_sep, Hin).
    exact IH.
  - rewrite (basename_app_absent [x] p Hout).
    rewrite basename_app_absent by (intros H; apply Hout, flat_map_sep, H).
    rewrite flat_map_app. f_equal.
    destruct (N.eq_dec x SEP) as [-> | Hx].
    + rewrite up_sep. reflexivity.
    + rewrite !basename_absent.
      * cbn. now rewrite app_nil_r.
      * intros H%list_elem_of_singleton. congruence.
      * intros H%list_elem_of_In%up_other. congruence.
Qed.
End Mapping.

Lemma upper_app a b : upper (a ++ b) = upper a ++ upper b.
Proof. apply flat_map_app. Qed.

Lemma basename_upper p : basename (upper p) = upper (basename p).
Proof.
  apply basename_flat_map.
  - apply upper_cp_sep.
  - intros c H. apply (upper_cp_keeps SEP c); auto.
Qed.

(** Upper-casing cannot turn a stem into dots only. *)
Lemma upper_keeps_non_dot p :
  existsb (fun c => negb (c =? EXTSEP)) p = true ->
  existsb (fun c => negb (c =? EXTSEP)) (upper p) = true.
Proof.
  intros (c & Hc & Hne)%existsb_exists. apply existsb_exists.
  destruct (upper_cp_image c) as [Hnil Himage].
  destruct (upper_cp c) as [|x image] eqn:E; [congruence |].
  exists x. split.
  - apply in_flat_map. exists c. split; [exact Hc |]. rewrite E. now left.
  - destruct (N.eqb_spec x EXTSEP) as [-> | _]; [| reflexivity].
    assert (Hin : In EXTSEP (upper_cp c)) by (rewrite E; now left).
    apply (upper_cp_keeps EXTSEP c) in Hin; [| auto]. subst c.
    now rewrite N.eqb_refl in Hne.
Qed.

(** An extension that lower-cases to an allowed one is ASCII. *)
Lemma allowed_extension_ascii ext :
  lower ext ∈ ALLOWED_EXTENSIONS -> Forall (fun c => c < 0x80) ext.
Proof.
  intros Hin. apply List.Forall_forall. intros c Hc.
  destruct (N.lt_ge_cases c 0x80) as [Hlt | Hge]; [exact Hlt | exfalso].
  destruct (lower_cp_nonascii c Hge) as (x & Hx & Hbad).
  assert (Hall : forall x, In x (lower ext) -> ext_char x = true).
  { intros y Hy. unfold ext_char, extension_chars. apply existsb_exists.
    exists y. split; [| apply N.eqb_refl].
    apply in_concat. exists (lower ext). split; [| exact Hy].
    now apply list_elem_of_In. }
  rewrite Hall in Hbad; [discriminate |].
  apply in_flat_map. now exists c.
Qed.

Lemma upper1_extsep : upper1 EXTSEP = EXTSEP.
Proof. now vm_compute. Qed.

Lemma map_upper1_keeps c e :
  c = SEP \/ c = EXTSEP ->
  (forall x, In x e -> x < 0x80) -> c ∉ e -> c ∉ map upper1 e.
Proof.
  intros Hc Hascii Hout (x & Hx & Hin)%list_elem_of_In%in_map_iff.
  pose proof (upper1_keeps c x Hc (Hascii x Hin)) as Hk.
  unfold keeps in Hk. rewrite Hx, N.eqb_refl in Hk.
  symmetry in Hk. apply N.eqb_eq in Hk. subst x.
  now apply Hout, list_elem_of_In.
Qed.

(** Accepted names stay accepted in upper case. *)
Lemma accept_upper f : accept f = true -> accept (upper f) = true.
Proof.
  unfold accept, file_extension. intros Hacc%bool_decide_eq_true.
  apply bool_decide_eq_true.
  assert (Hne : (splitext f).2 <> []).
  { intros E. rewrite E in Hacc. revert Hacc.
    apply (bool_decide_unpack _). now vm_compute. }
  destruct (splitext_elim f Hne) as (e & Hext & Hdot & Hsep & Hstem).
  pose proof (allowed_extension_ascii _ Hacc) as Hascii.
  pose proof (lower_upper_ascii _ Hascii) as Hlower.
  assert (Hupper : upper f
                   = upper (splitext f).1 ++ map upper1 (splitext f).2).
  { etransitivity; [exact (f_equal upper (eq_sym (splitext_app f))) |].
    etransitivity; [apply upper_app |].
    exact (f_equal (app _) (upper_ascii _ Hascii)). }
  rewrite Hext in Hascii, Hlower, Hupper.
  rewrite map_cons, upper1_extsep in Hlower, Hupper.
  apply Forall_cons in Hascii as [_ Hascii].
  rewrite List.Forall_forall in Hascii.
  assert (Hsplit : splitext (upper (splitext f).1 ++ EXTSEP :: map upper1 e)
                   = (upper (splitext f).1, EXTSEP :: map upper1 e)).
  { apply splitext_intro.
    - apply map_upper1_keeps; auto.
    - apply map_upper1_keeps; auto.
    - rewrite basename_upper. now apply upper_keeps_non_dot. }
  rewrite Hupper, Hsplit. cbn [snd]. rewrite Hlower, <- Hext. exact Hacc.
Qed.

(** ** The extension filter *)

(** C1 (as amended): a file name is accepted exactly when its extension,
    lower-cased and with its leading dot, is one of [.mp3], [.wav],
    [.flac], [.m4a], [.webm]; a name without extension, and in particular
    a name without a dot, is rejected; a name that is accepted is still
    accepted in upper case; and on names made of ASCII characters the
    decision is the same for the name and for the name in upper case. *)
Theorem file_filter_spec :
  forall f : pystr,
    (accept f = true <->
       lower (splitext f).2 ∈
         [str ".mp3"; str ".wav"; str ".flac"; str ".m4a"; str ".webm"])
    /\ ((splitext f).2 = [] -> accept f = false)
    /\ (EXTSEP ∉ f -> accept f = false)
    /\ (accept f = true -> accept (upper f) = true)
    /\ (Forall (fun c => c < 0x80) f -> accept (upper f) = accept f).
Proof.
  intros f. repeat split.
  - intros H. now apply bool_decide_eq_true in H.
  - intros H. now apply bool_decide_eq_true.
  - intros H. unfold accept, file_extension. now rewrite H.
  - intros H. unfold accept, file_extension. now rewrite (splitext_no_dot f H).
  - apply accept_upper.
  - intros H. unfold accept. now rewrite (file_extension_upper_ascii f H).
Qed.

Lemma file_filter_spec_witness :
  Forall (fun c => c < 0x80) (str "Take1.WaV")
  /\ accept (str "Take1.WaV") = true
  /\ accept (upper (str "Take1.WaV")) = accept (str "Take1.WaV")
  /\ accept (upper (str "Take1.WaV")) = true.
Proof.
  assert (H : Forall (fun c => c < 0x80) (str "Take1.WaV")).
  { apply (bool_decide_unpack _). now vm_compute. }
  assert (Hacc : accept (str "Take1.WaV") = true) by reflexivity.
  destruct (file_filter_spec (str "Take1.WaV"))
    as (_ & _ & _ & Hupper & Hascii).
  split; [exact H |]. split; [exact Hacc |].
  split; [exact (Hascii H) | exact (Hupper Hacc)].
Defined.

(** C1 (as stated) fails: [x.ﬂac] is rejected, its upper-case form
    [X.FLAC] is accepted. *)
Lemma file_filter_case_counterexample :
  accept ligature_name = false
  /\ accept (upper ligature_name) = true
  /\ accept ligature_name <> accept (upper ligature_name).
Proof. repeat split; [now vm_compute]. Qed.

(** C9: a file named by an allowed extension alone, such as [.mp3], is
    split into the whole name as stem and an empty extension, and is
    rejected. *)
Theorem bare_extension_rejected :
  forall name : pystr,
    name ∈ ALLOWED_EXTENSIONS ->
    splitext name = (name, []) /\ file_extension name = [] /\ accept name = false.
Proof.
  intros name H. unfold ALLOWED_EXTENSIONS in H.
  repeat (apply elem_of_cons in H as [-> | H]; [now vm_compute |]).
  inversion H.
Qed.

Lemma bare_extension_rejected_witness :
  str ".mp3" ∈ ALLOWED_EXTENSIONS
  /\ splitext (str ".mp3") = (str ".mp3", [])
  /\ accept (str ".mp3") = false.
Proof.
  assert (H : str ".mp3" ∈ ALLOWED_EXTENSIONS) by (now left).
  destruct (bare_extension_rejected (str ".mp3") H) as (Hs & _ & Ha).
  repeat split; assumption.
Defined.

(** ** One run of [transcribe_file] *)

Lemma read_binary_inv path w data :
  (read_binary path w).1 = Ok data ->
  read_fault w path = None /\ files w !! path = Some data.
Proof.
  unfold read_binary. destruct (read_fault w path); [discriminate |].
  destruct (files w !! path); [| discriminate]. cbn. intros [= ->]. auto.
Qed.

Lemma first_transcript_some response text :
  first_transcript response = Some text ->
  exists channel chs alternative alts,
    channels (results response) = channel :: chs
    /\ alternatives channel = alternative :: alts
    /\ transcript alternative = text.
Proof.
  unfold first_transcript.
  destruct (channels (results response)) as [|channel chs]; [discriminate |].
  destruct (alternatives channel) as [|alternative alts] eqn:Halt;
    [discriminate |].
  intros [= <-]. now exists channel, chs, alternative, alts.
Qed.

(** The file cannot be read: the Error line follows the attempt at once. *)
Lemma run_read_raises filepath deepgram w e :
  (read_binary filepath w).1 = Raise e ->
  transcribe_file filepath deepgram w
  = (Ok tt, logs [Print (LProcessing (basename filepath)); OpenRead filepath;
                  Print (LError (basename filepath) e)] w).
Proof.
  unfold read_binary. intros H. run.
  destruct (read_fault w filepath); [now injection H as -> |].
  destruct (files w !! filepath); [discriminate | now injection H as <-].
Qed.

(** The client raises: nothing is opened for writing. *)
Lemma run_call_raises filepath deepgram w data e :
  (read_binary filepath w).1 = Ok data ->
  deepgram (requests (trace w)) (transcribe_request data) = inl e ->
  transcribe_file filepath deepgram w
  = (Ok tt, logs [Print (LProcessing (basename filepath)); OpenRead filepath;
                  Transcribe (transcribe_request data);
                  Print (LError (basename filepath) e)] w).
Proof.
  intros [Hfault Hfile]%read_binary_inv Hcall. now replay.
Qed.

(** The response holds no transcript: indexing raises [IndexError]. *)
Lemma run_extract_raises filepath deepgram w data response :
  (read_binary filepath w).1 = Ok data ->
  deepgram (requests (trace w)) (transcribe_request data) = inr response ->
  first_transcript response = None ->
  transcribe_file filepath deepgram w
  = (Ok tt, logs [Print (LProcessing (basename filepath)); OpenRead filepath;
                  Transcribe (transcribe_request data);
                  Print (LError (basename filepath) IndexError)] w).
Proof.
  intros [Hfault Hfile]%read_binary_inv Hcall Hnone. replay.
  unfold first_transcript in Hnone.
  destruct (channels (results response)) as [|channel chs]; [reflexivity |].
  destruct (alternatives channel) as [|alternative alts]; [reflexivity |].
  discriminate.
Qed.

(** The transcript cannot be written: the files are as the failed write
    left them. *)
Lemma run_write_raises filepath deepgram w data response text e :
  (read_binary filepath w).1 = Ok data ->
  deepgram (requests (trace w)) (transcribe_request data) = inr response ->
  first_transcript response = Some text ->
  (write_text (transcript_path (basename filepath)) text w).1 = Raise e ->
  transcribe_file filepath deepgram w
  = (Ok tt,
     logs [Print (LProcessing (basename filepath)); OpenRead filepath;
           Transcribe (transcribe_request data);
           OpenWrite (transcript_path (basename filepath));
           Print (LError (basename filepath) e)]
       (set_files
          (files (write_text (transcript_path (basename filepath)) text w).2)
          w)).
Proof.
  intros [Hfault Hfile]%read_binary_inv Hcall
    (channel & chs & alternative & alts & Hch & Halt & <-)%first_transcript_some
    Hwrite.
  replay. unfold write_text in *.
  destruct (open_fault w _); [now injection Hwrite as -> |].
  destruct (utf8_encode _); [now injection Hwrite as -> |].
  destruct (flush_fault w _) as [[e' n]|]; [now injection Hwrite as -> |].
  discriminate.
Qed.

(** Nothing raises: the encoded transcript is saved and Success printed. *)
Lemma run_clean filepath deepgram w text encoded :
  runs_clean filepath deepgram w text encoded ->
  exists data,
    transcribe_file filepath deepgram w
    = (Ok tt,
       logs [Print (LProcessing (basename filepath)); OpenRead filepath;
             Transcribe (transcribe_request data);
             OpenWrite (transcript_path (basename filepath));
             Print (LSuccess (transcript_path (basename filepath)));
             Print (LTranscript (take 80 text))]
         (set_files
            (<[transcript_path (basename filepath) := encoded]> (files w))
            w)).
Proof.
  intros (data & response & [Hfault Hfile]%read_binary_inv & Hcall
          & (channel & chs & alternative & alts & Hch & Halt & <-)%first_transcript_some
          & Hwrite & Henc).
  exists data. replay. unfold write_text in *.
  destruct (open_fault w _); [discriminate |]. rewrite Henc in *.
  destruct (flush_fault w _) as [[e' n]|]; [discriminate |].
  reflexivity.
Qed.

(** A run either meets an exception at one of its steps or is clean. *)
Lemma run_cases filepath deepgram w :
  (exists e, raises_at filepath deepgram w e)
  \/ (exists text encoded, runs_clean filepath deepgram w text encoded).
Proof.
  destruct (read_binary filepath w).1 as [data | e] eqn:Hread;
    [| left; exists e; now apply raises_reading].
  destruct (deepgram (requests (trace w)) (transcribe_request data))
    as [e | response] eqn:Hcall;
    [left; exists e; now apply raises_calling with data |].
  destruct (first_transcript response) as [text |] eqn:Htext;
    [| left; exists IndexError; now apply raises_extracting with data response].
  destruct (write_text (transcript_path (basename filepath)) text w).1
    as [[] | e] eqn:Hwrite;
    [| left; exists e; now apply raises_writing with data response text].
  right. exists text.
  assert (exists encoded, utf8_encode text = inr encoded) as [encoded Henc].
  { unfold write_text in Hwrite. destruct (open_fault w _); [discriminate |].
    destruct (utf8_encode text) as [e | encoded]; [discriminate |].
    now exists encoded. }
  exists encoded, data, response. auto.
Qed.

(** ** One file event *)

Lemma on_created_accepted self event w :
  is_directory event = false ->
  accept (basename (src_path event)) = true ->
  on_created self event w
  = transcribe_file (src_path event) (deepgram self)
      (logs [Print (LNewFile (basename (src_path event))); Sleep 1] w).
Proof.
  intros Hfile Hacc. unfold on_created, accept, file_extension in *.
  now rewrite Hfile, Hacc.
Qed.

Lemma requests_announced l n w :
  requests (trace (logs [Print l; Sleep n] w)) = requests (trace w).
Proof. rewrite trace_logs, requests_app. apply app_nil_r. Qed.

(** The announcement and the pause change nothing to what a run meets. *)
Lemma raises_at_announced filepath deepgram l n w e :
  raises_at filepath deepgram w e ->
  raises_at filepath deepgram (logs [Print l; Sleep n] w) e.
Proof.
  intros [Hread | data Hread Hcall | data response Hread Hcall Hnone ->
          | data response text Hread Hcall Htext Hwrite].
  - apply raises_reading. now rewrite read_binary_logs.
  - apply raises_calling with data; [now rewrite read_binary_logs |].
    now rewrite requests_announced.
  - apply raises_extracting with data response;
      [now rewrite read_binary_logs | | exact Hnone | reflexivity].
    now rewrite requests_announced.
  - apply raises_writing with data response text;
      [now rewrite read_binary_logs | | exact Htext
       | now rewrite write_text_logs].
    now rewrite requests_announced.
Qed.

Lemma runs_clean_announced filepath deepgram l n w text encoded :
  runs_clean filepath deepgram w text encoded ->
  runs_clean filepath deepgram (logs [Print l; Sleep n] w) text encoded.
Proof.
  intros (data & response & Hread & Hcall & Htext & Hwrite & Henc).
  exists data, response.
  rewrite requests_announced, read_binary_logs, write_text_logs.
  repeat split; assumption.
Qed.

(** A run that meets an exception [e]: its final world, in full. *)
Lemma run_raises filepath deepgram w e :
  raises_at filepath deepgram w e ->
  exists t f,
    transcribe_file filepath deepgram w
    = (Ok tt,
       logs (Print (LProcessing (basename filepath)) :: OpenRead filepath
               :: t ++ [Print (LError (basename filepath) e)])
         (set_files f w))
    /\ (t = []
        \/ (exists data, t = [Transcribe (transcribe_request data)])
        \/ (exists data,
              t = [Transcribe (transcribe_request data);
                   OpenWrite (transcript_path (basename filepath))]))
    /\ (List.filter is_open_write t = [] -> f = files w).
Proof.
  intros [Hread | data Hread Hcall | data response Hread Hcall Hnone ->
          | data response text Hread Hcall Htext Hwrite].
  - exists [], (files w). split; [| now auto].
    now rewrite (run_read_raises _ _ _ _ Hread).
  - exists [Transcribe (transcribe_request data)], (files w).
    split; [| split; [right; left; now exists data | reflexivity]].
    now rewrite (run_call_raises _ _ _ _ _ Hread Hcall).
  - exists [Transcribe (transcribe_request data)], (files w).
    split; [| split; [right; left; now exists data | reflexivity]].
    now rewrite (run_extract_raises _ _ _ _ _ Hread Hcall Hnone).
  - exists [Transcribe (transcribe_request data);
            OpenWrite (transcript_path (basename filepath))],
      (files (write_text (transcript_path (basename filepath)) text w).2).
    split; [| split; [right; right; now exists data | discriminate]].
    now rewrite (run_write_raises _ _ _ _ _ _ _ Hread Hcall Htext Hwrite).
Qed.

Lemma outcomes_raises filename filepath t e :
  (t = []
   \/ (exists data, t = [Transcribe (transcribe_request data)])
   \/ (exists data, t = [Transcribe (transcribe_request data);
                         OpenWrite (transcript_path filename)])) ->
  outcomes (Print (LProcessing filename) :: OpenRead filepath
              :: t ++ [Print (LError filename e)]) = [Error]
  /\ length (List.filter is_open_read
               (Print (LProcessing filename) :: OpenRead filepath
                  :: t ++ [Print (LError filename e)])) = 1%nat
  /\ (length (List.filter is_transcribe
                (Print (LProcessing filename) :: OpenRead filepath
                   :: t ++ [Print (LError filename e)])) <= 1)%nat
  /\ last (Print (LProcessing filename) :: OpenRead filepath
             :: t ++ [Print (LError filename e)])
     = Some (Print (LError filename e)).
Proof.
  intros [-> | [[data ->] | [data ->]]]; cbn; repeat split; lia.
Qed.

Lemma on_created_total self event w : (on_created self event w).1 = Ok tt.
Proof.
  unfold on_created. destruct (is_directory event); [reflexivity |].
  cbv zeta. destruct (bool_decide _); [| reflexivity].
  change (bind (print ?l) (fun _ => bind (sleep ?n) (fun _ => ?k)) w)
    with (k (logs [Print l; Sleep n] w)).
  destruct (run_cases (src_path event) (deepgram self)
              (logs [Print (LNewFile (basename (src_path event))); Sleep 1] w))
    as [[e He] | (text & encoded & Hc)].
  - apply run_raises in He as (t & f & -> & _). reflexivity.
  - apply run_clean in Hc as (data & ->). reflexivity.
Qed.

Lemma dispatch_cons self event rest w :
  dispatch self (event :: rest) w
  = dispatch self rest (on_created self event w).2.
Proof.
  cbn [dispatch]. unfold bind.
  pose proof (on_created_total self event w) as H.
  destruct (on_created self event w) as [r w']. cbn in *. now rewrite H.
Qed.

Lemma new_trace_run w f t l n :
  new_trace w (logs t (set_files f (logs [Print l; Sleep n] w)))
  = Print l :: Sleep n :: t.
Proof.
  apply new_trace_app. rewrite trace_logs.
  change (trace (set_files f ?x)) with (trace x).
  rewrite trace_logs, <- app_assoc. reflexivity.
Qed.

(** An accepted file event whose run meets the exception [e]. *)
Lemma on_created_raises self event w e :
  is_directory event = false ->
  accept (basename (src_path event)) = true ->
  raises_at (src_path event) (deepgram self) w e ->
  exists t f,
    on_created self event w
    = (Ok tt,
       logs (Print (LProcessing (basename (src_path event)))
               :: OpenRead (src_path event)
               :: t ++ [Print (LError (basename (src_path event)) e)])
         (set_files f
            (logs [Print (LNewFile (basename (src_path event))); Sleep 1] w)))
    /\ (t = []
        \/ (exists data, t = [Transcribe (transcribe_request data)])
        \/ (exists data,
              t = [Transcribe (transcribe_request data);
                   OpenWrite (transcript_path (basename (src_path event)))]))
    /\ (List.filter is_open_write t = [] -> f = files w).
Proof.
  intros Hfile Hacc He. rewrite (on_created_accepted _ _ _ Hfile Hacc).
  apply (raises_at_announced _ _ (LNewFile (basename (src_path event))) 1) in He.
  apply run_raises in He as (t & f & -> & Ht & Hf).
  exists t, f. repeat split; assumption.
Qed.

(** An accepted file event whose run is clean. *)
Lemma on_created_clean self event w text encoded :
  is_directory event = false ->
  accept (basename (src_path event)) = true ->
  runs_clean (src_path event) (deepgram self) w text encoded ->
  exists data,
    on_created self event w
    = (Ok tt,
       logs [Print (LProcessing (basename (src_path event)));
             OpenRead (src_path event);
             Transcribe (transcribe_request data);
             OpenWrite (transcript_path (basename (src_path event)));
             Print (LSuccess (transcript_path (basename (src_path event))));
             Print (LTranscript (take 80 text))]
         (set_files
            (<[transcript_path (basename (src_path event)) := encoded]>
               (files w))
            (logs [Print (LNewFile (basename (src_path event))); Sleep 1] w))).
Proof.
  intros Hfile Hacc Hc. rewrite (on_created_accepted _ _ _ Hfile Hacc).
  apply (runs_clean_announced _ _ (LNewFile (basename (src_path event))) 1)
    in Hc.
  apply run_clean in Hc as (data & ->). exists data.
  now rewrite files_logs.
Qed.

(** ** Outcomes of file events *)


Lemma on_created_extends self event w :
  exists t, trace (on_created self event w).2 = trace w ++ t.
Proof.
  destruct (is_directory event) eqn:Hdir.
  { exists []. rewrite (on_created_directory _ _ _ Hdir). now rewrite app_nil_r. }
  destruct (accept (basename (src_path event))) eqn:Hacc.
  2:{ eexists. rewrite (on_created_ignored _ _ _ Hdir Hacc). apply trace_logs. }
  destruct (run_cases (src_path event) (deepgram self) w)
    as [[e He] | (text & encoded & Hc)].
  - destruct (on_created_raises _ _ _ _ Hdir Hacc He) as (t & f & -> & _).
    eexists. cbn [snd]. rewrite trace_logs.
    change (trace (set_files f ?x)) with (trace x).
    now rewrite trace_logs, <- app_assoc.
  - destruct (on_created_clean _ _ _ _ _ Hdir Hacc Hc) as (data & ->).
    eexists. cbn [snd]. rewrite trace_logs.
    change (trace (set_files ?f ?x)) with (trace x).
    now rewrite trace_logs, <- app_assoc.
Qed.

(** ** Failures *)


(** C6: when the client raises on an accepted file's request, the run
    ends on the Error line without opening anything for writing and the
    files are exactly as before; the handler then takes the next event,
    and if that event's run is clean it reports Success and saves its
    transcript, the only change to the files. *)
Theorem client_failure_writes_nothing :
  forall (self : AudioHandler) (event next : FileSystemEvent)
         (rest : list FileSystemEvent) (w : World) (data : bytes) (e : exn),
    is_directory event = false ->
    accept (basename (src_path event)) = true ->
    (read_binary (src_path event) w).1 = Ok data ->
    deepgram self (requests (trace w)) (transcribe_request data) = inl e ->
    let r := on_created self event w in
    r = (Ok tt,
         logs [Print (LNewFile (basename (src_path event))); Sleep 1;
               Print (LProcessing (basename (src_path event)));
               OpenRead (src_path event);
               Transcribe (transcribe_request data);
               Print (LError (basename (src_path event)) e)] w)
    /\ files r.2 = files w
    /\ List.filter is_open_write (new_trace w r.2) = []
    /\ outcomes (new_trace w r.2) = [Error]
    /\ dispatch self (event :: next :: rest) w
       = dispatch self rest (on_created self next r.2).2
    /\ (forall text encoded,
          is_directory next = false ->
          accept (basename (src_path next)) = true ->
          runs_clean (src_path next) (deepgram self) r.2 text encoded ->
          outcomes (new_trace r.2 (on_created self next r.2).2) = [Success]
          /\ files (on_created self next r.2).2
             = <[transcript_path (basename (src_path next)) := encoded]>
                 (files w)).
Proof.
  intros self event next rest w data e Hfile Hacc Hread Hcall r. subst r.
  rewrite !dispatch_cons.
  assert (Hrun : on_created self event w
                 = (Ok tt,
                    logs [Print (LNewFile (basename (src_path event))); Sleep 1;
                          Print (LProcessing (basename (src_path event)));
                          OpenRead (src_path event);
                          Transcribe (transcribe_request data);
                          Print (LError (basename (src_path event)) e)] w)).
  { rewrite (on_created_accepted _ _ _ Hfile Hacc).
    rewrite (run_call_raises _ _ _ data e); [reflexivity | |].
    - now rewrite read_binary_logs.
    - now rewrite requests_announced. }
  rewrite Hrun. cbn [snd]. rewrite new_trace_logs, files_logs.
  do 5 (split; [reflexivity |]).
  intros text encoded Hfile' Hacc' Hc.
  destruct (on_created_clean _ _ _ _ _ Hfile' Hacc' Hc) as (data' & ->).
  cbn [snd]. rewrite new_trace_run, !files_logs. now split.
Qed.

(** ** Saving the transcript *)

Lemma new_trace_logs_set t f w : new_trace w (logs t (set_files f w)) = t.
Proof. apply new_trace_app. now rewrite trace_logs. Qed.

(** The transcript is saved directly inside [TRANSCRIPT_DIRECTORY]. *)
Lemma transcript_path_eq filename :
  SEP ∉ filename ->
  transcript_path filename
  = TRANSCRIPT_DIRECTORY
    ++ (SEP :: ((splitext filename).1 ++ str "_transcript.txt"))
  /\ SEP ∉ ((splitext filename).1 ++ str "_transcript.txt").
Proof.
  intros H. apply splitext_stem_no_sep in H.
  assert (Hname : SEP ∉ (splitext filename).1 ++ str "_transcript.txt").
  { intros [Hin | Hin]%elem_of_app; [now apply H |].
    revert Hin. apply (bool_decide_unpack _). now vm_compute. }
  split; [| exact Hname].
  unfold transcript_path, join.
  destruct ((splitext filename).1 ++ str "_transcript.txt") as [|c s] eqn:E;
    [reflexivity |].
  cbn [startswith_sep]. destruct (N.eqb_spec c SEP) as [-> | _]; [| reflexivity].
  exfalso. apply Hname. now left.
Qed.

(** A run that reports Success is a clean run. *)
Lemma success_is_clean filepath deepgram w :
  Success ∈ outcomes (new_trace w (transcribe_file filepath deepgram w).2) ->
  exists text encoded, runs_clean filepath deepgram w text encoded.
Proof.
  intros H.
  destruct (run_cases filepath deepgram w) as [[e He] | Hc]; [| exact Hc].
  apply run_raises in He as (t & f & Hrun & Ht & _).
  rewrite Hrun in H. cbn [snd] in H. rewrite new_trace_logs_set in H.
  destruct (outcomes_raises (basename filepath) filepath t e Ht) as (Ho & _).
  rewrite Ho in H. apply list_elem_of_singleton in H. discriminate.
Qed.


(** C3: when a run of [transcribe_file] reports Success, the client has
    answered with a transcript [text], and the run has opened exactly one
    file for writing: [TRANSCRIPT_DIRECTORY/<stem>_transcript.txt], where
    [<stem>] is the file name without its extension.  That file now holds
    the UTF-8 encoding of [text] and nothing else, whatever it held
    before, and no other file has changed. *)
Theorem transcript_saved_on_success :
  forall (filepath : pystr) (deepgram : DeepgramClient) (w : World),
    let filename := basename filepath in
    let r := transcribe_file filepath deepgram w in
    Success ∈ outcomes (new_trace w r.2) ->
    exists text encoded,
      runs_clean filepath deepgram w text encoded
      /\ utf8_encode text = inr encoded
      /\ files r.2 = <[transcript_path filename := encoded]> (files w)
      /\ files r.2 !! transcript_path filename = Some encoded
      /\ (forall p, p <> transcript_path filename ->
                    files r.2 !! p = files w !! p)
      /\ List.filter is_open_write (new_trace w r.2)
         = [OpenWrite (transcript_path filename)]
      /\ transcript_path filename
         = TRANSCRIPT_DIRECTORY
           ++ (SEP :: ((splitext filename).1 ++ str "_transcript.txt"))
      /\ (SEP ∉ (splitext filename).1 ++ str "_transcript.txt")
      /\ (splitext filename).1 ++ (splitext filename).2 = filename.
Proof.
  intros filepath deepgram w filename r H. subst r.
  destruct (success_is_clean _ _ _ H) as (text & encoded & Hc).
  exists text, encoded.
  destruct (run_clean _ _ _ _ _ Hc) as (data & ->). cbn [snd].
  rewrite new_trace_logs_set, files_logs. cbn [files set_files].
  destruct (transcript_path_eq filename (basename_no_sep filepath))
    as [Hpath Hname].
  split; [exact Hc |].
  split; [now destruct Hc as (? & ? & _ & _ & _ & _ & Henc) |].
  split; [reflexivity |].
  split; [apply lookup_insert_eq |].
  split; [intros p Hp; now apply lookup_insert_ne |].
  split; [reflexivity |].
  split; [exact Hpath |].
  split; [exact Hname | apply splitext_app].
Qed.


(** ** Order of handling *)


(** ** Worked examples *)

(** [sample.wav] with a client answering [hello world]: the run reports
    Success and [sample_transcript.txt] holds exactly [hello world]. *)
Example sample_round_trip :
  let r := on_created {| deepgram := stub_returning (str "hello world") |}
             sample_event sample_world in
  r.1 = Ok tt
  /\ outcomes (trace r.2) = [Success]
  /\ files r.2 !! str "/tmp/transcripts/sample_transcript.txt"
     = Some (str "hello world")
  /\ size (files r.2) = 2%nat.
Proof. now vm_compute. Qed.

(** [loud.mp3] fails on a network error, then [quiet.wav] goes through:
    one Error, one Success, and the only transcript is that of
    [quiet.wav]. *)
Example loud_then_quiet :
  let r := dispatch {| deepgram := stub_failing_first (str "shh") |}
             [loud_event; quiet_event] loud_quiet_world in
  r.1 = Ok tt
  /\ outcomes (trace r.2) = [Error; Success]
  /\ files r.2 !! str "/tmp/transcripts/loud_transcript.txt" = None
  /\ files r.2 !! str "/tmp/transcripts/quiet_transcript.txt"
     = Some (str "shh").
Proof. now vm_compute. Qed.

(** [notes.txt] is ignored without a client call. *)
Example notes_ignored :
  let r := on_created {| deepgram := stub_returning (str "hello world") |}
             (created (str "/tmp/audio_to_process/notes.txt")) sample_world in
  outcomes (trace r.2) = [Ignored] /\ requests (trace r.2) = [].
Proof. now vm_compute. Qed.

(** [a.wav] then [b.wav]: the client is called for [a.wav] first. *)
Example a_then_b :
  let r := dispatch {| deepgram := stub_returning (str "ok") |}
             [a_event; b_event] a_b_world in
  map request (requests (trace r.2)) = [[0x0A]; [0x0B]]
  /\ outcomes (trace r.2) = [Success; Success].
Proof. now vm_compute. Qed.

(** A transcript holding a lone surrogate cannot be encoded: the run
    reports Error after the output file has been created empty. *)
Example surrogate_transcript :
  let r := on_created {| deepgram := stub_returning [0x68; 0xD800] |}
             sample_event sample_world in
  outcomes (trace r.2) = [Error]
  /\ files r.2 !! str "/tmp/transcripts/sample_transcript.txt" = Some [].
Proof. now vm_compute. Qed.

(** The same file processed twice: the second transcript replaces the
    first and no second file appears. *)
Example sample_reprocessed :
  let r1 := on_created {| deepgram := stub_returning (str "first") |}
              sample_event sample_world in
  let r2 := on_created {| deepgram := stub_returning (str "second") |}
              sample_event r1.2 in
  files r1.2 !! str "/tmp/transcripts/sample_transcript.txt"
  = Some (str "first")
  /\ files r2.2 !! str "/tmp/transcripts/sample_transcript.txt"
     = Some (str "second")
  /\ size (files r1.2) = 2%nat /\ size (files r2.2) = 2%nat.
Proof. now vm_compute. Qed.

(** [utf8_encode] on one, two, three and four octet characters:
    [a], U+00E9, U+20AC, U+1F600. *)
Example utf8_sample :
  utf8_encode [0x61; 0xE9; 0x20AC; 0x1F600]
  = inr [0x61; 0xC3; 0xA9; 0xE2; 0x82; 0xAC; 0xF0; 0x9F; 0x98; 0x80].
Proof. reflexivity. Qed.

(** ** Witnesses *)



Lemma client_failure_writes_nothing_witness :
  is_directory loud_event = false
  /\ accept (basename (src_path loud_event)) = true
  /\ (read_binary (src_path loud_event) loud_quiet_world).1
     = Ok [0x49; 0x44; 0x33]
  /\ stub_failing_first (str "shh") (requests (trace loud_quiet_world))
       (transcribe_request [0x49; 0x44; 0x33])
     = inl (ClientError (str "network error"))
  /\ files (on_created {| deepgram := stub_failing_first (str "shh") |}
              loud_event loud_quiet_world).2
     = files loud_quiet_world
  /\ List.filter is_open_write
       (new_trace loud_quiet_world
          (on_created {| deepgram := stub_failing_first (str "shh") |}
             loud_event loud_quiet_world).2) = [].
Proof.
  assert (Hread : (read_binary (src_path loud_event) loud_quiet_world).1
                  = Ok [0x49; 0x44; 0x33]) by now vm_compute.
  assert (Hcall : stub_failing_first (str "shh")
                    (requests (trace loud_quiet_world))
                    (transcribe_request [0x49; 0x44; 0x33])
                  = inl (ClientError (str "network error"))) by reflexivity.
  split; [reflexivity |]. split; [reflexivity |].
  split; [exact Hread |]. split; [exact Hcall |].
  destruct (client_failure_writes_nothing
              {| deepgram := stub_failing_first (str "shh") |}
              loud_event quiet_event [] loud_quiet_world
              [0x49; 0x44; 0x33] (ClientError (str "network error"))
              eq_refl eq_refl Hread Hcall)
    as (_ & Hf & Hw & _).
  split; assumption.
Defined.

Lemma transcript_saved_on_success_witness :
  Success ∈ outcomes
    (new_trace sample_world
       (transcribe_file (src_path sample_event)
          (stub_returning (str "hello world")) sample_world).2)
  /\ exists text encoded,
       utf8_encode text = inr encoded
       /\ files (transcribe_file (src_path sample_event)
                   (stub_returning (str "hello world")) sample_world).2
          !! transcript_path (basename (src_path sample_event))
          = Some encoded.
Proof.
  assert (H : Success ∈ outcomes
                (new_trace sample_world
                   (transcribe_file (src_path sample_event)
                      (stub_returning (str "hello world")) sample_world).2)).
  { replace (outcomes _) with [Success] by now vm_compute. now left. }
  split; [exact H |].
  destruct (transcript_saved_on_success (src_path sample_event)
              (stub_returning (str "hello world")) sample_world H)
    as (text & encoded & _ & Henc & _ & Hlook & _).
  exists text, encoded. split; assumption.
Defined.



(** * Further properties *)

(** ** Case mapping on ASCII, lower case *)

Lemma lower_cp_ascii c : c < 0x80 -> lower_cp c = [lower1 c].
Proof.
  intros H.
  apply (ascii_forall (fun c => bool_decide (lower_cp c = [lower1 c]))) in H;
    [now apply bool_decide_eq_true in H | now vm_compute].
Qed.

Lemma lower1_keeps c x : (c = SEP \/ c = EXTSEP) -> x < 0x80 -> keeps lower1 c x.
Proof.
  intros Hc H. unfold keeps.
  apply (ascii_forall
           (fun x => bool_decide ((lower1 x =? SEP) = (x =? SEP)
                                  /\ (lower1 x =? EXTSEP) = (x =? EXTSEP)))) in H;
    [| now vm_compute].
  apply bool_decide_eq_true in H as [Hs Hd]. now destruct Hc as [-> | ->].
Qed.

Lemma lower_ascii p : Forall (fun c => c < 0x80) p -> lower p = map lower1 p.
Proof.
  induction 1 as [|c p Hc _ IH]; [reflexivity |].
  unfold lower in *. cbn. now rewrite IH, (lower_cp_ascii c Hc).
Qed.

Lemma map_lower1_keeps c e :
  c = SEP \/ c = EXTSEP ->
  Forall (fun x => x < 0x80) e -> c ∈ e <-> c ∈ map lower1 e.
Proof.
  intros Hc Hascii. rewrite !list_elem_of_In, in_map_iff.
  rewrite List.Forall_forall in Hascii. split.
  - intros Hin. exists c. split; [| exact Hin].
    pose proof (lower1_keeps c c Hc (Hascii c Hin)) as Hk.
    unfold keeps in Hk. rewrite N.eqb_refl in Hk. now apply N.eqb_eq.
  - intros (x & Hx & Hin).
    pose proof (lower1_keeps c x Hc (Hascii x Hin)) as Hk.
    unfold keeps in Hk. rewrite Hx, N.eqb_refl in Hk.
    symmetry in Hk. apply N.eqb_eq in Hk. now subst x.
Qed.

(** What lower-cases to an allowed extension is a dot followed by
    neither dot nor separator. *)
Lemma allowed_extension_shape ext :
  lower ext ∈ ALLOWED_EXTENSIONS ->
  exists e, ext = EXTSEP :: e /\ (EXTSEP ∉ e) /\ (SEP ∉ e).
Proof.
  intros Hin. pose proof (allowed_extension_ascii _ Hin) as Hascii.
  assert (Hshape : exists a, lower ext = EXTSEP :: a
                             /\ (EXTSEP ∉ a) /\ (SEP ∉ a)).
  { unfold ALLOWED_EXTENSIONS in Hin.
    repeat (apply elem_of_cons in Hin as [-> | Hin];
            [eexists; split; [reflexivity |];
             split; apply (bool_decide_unpack _); now vm_compute |]).
    inversion Hin. }
  destruct Hshape as (a & Ha & Hdot & Hsep).
  rewrite (lower_ascii _ Hascii) in Ha.
  destruct ext as [|x e]; [discriminate |]. cbn [map] in Ha.
  injection Ha as Hx Ha. apply Forall_cons in Hascii as [Hxa Hascii].
  pose proof (lower1_keeps EXTSEP x (or_intror eq_refl) Hxa) as Hk.
  unfold keeps in Hk. rewrite Hx, N.eqb_refl in Hk.
  symmetry in Hk. apply N.eqb_eq in Hk. subst x a.
  exists e. split; [reflexivity |]. split.
  - intros H. apply Hdot.
    exact (proj1 (map_lower1_keeps EXTSEP e (or_intror eq_refl) Hascii) H).
  - intros H. apply Hsep.
    exact (proj1 (map_lower1_keeps SEP e (or_introl eq_refl) Hascii) H).
Qed.

(** ** The names the filter accepts *)

(** X1: a name is accepted exactly when it splits into a stem and an
    extension such that the extension lower-cases to an allowed one and
    the last path component of the stem holds a character other than the
    dot.  So only what follows the last dot counts, whatever dots come
    before it, and the case of the extension does not matter. *)
Theorem accept_characterised :
  forall f : pystr,
    accept f = true <->
    exists stem ext,
      f = stem ++ ext
      /\ lower ext ∈ ALLOWED_EXTENSIONS
      /\ has_non_dot (basename stem) = true.
Proof.
  intros f. unfold accept, file_extension. rewrite bool_decide_eq_true. split.
  - intros Hin. exists (splitext f).1, (splitext f).2.
    split; [symmetry; apply splitext_app |]. split; [exact Hin |].
    assert (Hne : (splitext f).2 <> []).
    { intros E. rewrite E in Hin. revert Hin.
      apply (bool_decide_unpack _). now vm_compute. }
    now destruct (splitext_elim f Hne) as (e & _ & _ & _ & Hstem).
  - intros (stem & ext & -> & Hin & Hstem).
    destruct (allowed_extension_shape ext Hin) as (e & -> & Hdot & Hsep).
    now rewrite (splitext_intro stem e Hdot Hsep Hstem).
Qed.

(** X2: a name made of dots followed by characters that are neither dot
    nor separator has no extension, and is rejected: [.mp3], [..mp3],
    [...wav] are not audio files for the monitor. *)
Theorem leading_dots_rejected :
  forall (n : nat) (e : pystr),
    EXTSEP ∉ e -> SEP ∉ e ->
    splitext (replicate n EXTSEP ++ e) = (replicate n EXTSEP ++ e, [])
    /\ accept (replicate n EXTSEP ++ e) = false.
Proof.
  intros n e Hdot Hsep.
  assert (Hsplit : splitext (replicate n EXTSEP ++ e)
                   = (replicate n EXTSEP ++ e, [])).
  { destruct n as [|n].
    - now apply splitext_no_dot.
    - unfold splitext.
      assert (Hs : rfind SEP (replicate (S n) EXTSEP ++ e) = (-1)%Z).
      { apply rfind_absent. intros [H | H]%elem_of_app; [| now apply Hsep].
        apply elem_of_replicate in H as [H _]. discriminate. }
      assert (Hd : rfind EXTSEP (replicate (S n) EXTSEP ++ e) = Z.of_nat n).
      { rewrite rfind_app_absent by exact Hdot.
        replace (replicate (S n) EXTSEP) with (replicate n EXTSEP ++ [EXTSEP])
          by (rewrite <- replicate_S_end; reflexivity).
        rewrite rfind_app_present by now left.
        rewrite length_replicate. cbn. lia. }
      rewrite Hs, Hd. unfold slice. cbn [Z.add Z.to_nat].
      rewrite Nat2Z.id, drop_0, Nat.sub_0_r.
      replace (take n (replicate (S n) EXTSEP ++ e)) with (replicate n EXTSEP).
      + replace (existsb _ (replicate n EXTSEP)) with false;
          [now rewrite andb_false_r |].
        clear. induction n as [|n IH]; [reflexivity | exact IH].
      + rewrite take_app_le by (rewrite length_replicate; lia).
        rewrite take_replicate. f_equal. lia. }
  split; [exact Hsplit |].
  unfold accept, file_extension. now rewrite Hsplit.
Qed.

Lemma leading_dots_rejected_witness :
  (EXTSEP ∉ str "mp3") /\ (SEP ∉ str "mp3")
  /\ replicate 2 EXTSEP ++ str "mp3" = str "..mp3"
  /\ accept (str "..mp3") = false.
Proof.
  assert (Hdot : EXTSEP ∉ str "mp3")
    by (apply (bool_decide_unpack _); now vm_compute).
  assert (Hsep : SEP ∉ str "mp3")
    by (apply (bool_decide_unpack _); now vm_compute).
  split; [exact Hdot |]. split; [exact Hsep |]. split; [reflexivity |].
  exact (proj2 (leading_dots_rejected 2 (str "mp3") Hdot Hsep)).
Defined.

(** ** Where transcripts go *)

Lemma transcript_suffix_no_sep : SEP ∉ str "_transcript.txt".
Proof. apply (bool_decide_unpack _). now vm_compute. Qed.

Lemma transcript_basename filepath :
  basename (transcript_path (basename filepath))
  = (splitext (basename filepath)).1 ++ str "_transcript.txt".
Proof.
  destruct (transcript_path_eq _ (basename_no_sep filepath)) as [-> Hname].
  change (?a ++ (SEP :: ?b)) with (a ++ [SEP] ++ b).
  rewrite app_assoc, basename_app_absent by exact Hname.
  replace (basename (TRANSCRIPT_DIRECTORY ++ [SEP])) with (@nil N)
    by now vm_compute.
  reflexivity.
Qed.

(** The transcript of a file is never the file itself. *)
Lemma transcript_path_fresh filepath :
  transcript_path (basename filepath) <> filepath.
Proof.
  intros E. pose proof (transcript_basename filepath) as Hb.
  rewrite E in Hb. rewrite <- (splitext_app (basename filepath)) in Hb at 1.
  apply app_inv_head in Hb.
  destruct (splitext (basename filepath)).2 as [|c e] eqn:Hext;
    [discriminate |].
  assert (Hne : (splitext (basename filepath)).2 <> []) by now rewrite Hext.
  destruct (splitext_elim _ Hne) as (e' & He' & _).
  rewrite Hext in He'. injection He' as -> _. discriminate.
Qed.

(** A transcript is not an audio file. *)
Lemma transcript_not_accepted filepath :
  accept (basename (transcript_path (basename filepath))) = false.
Proof.
  rewrite transcript_basename.
  change (str "_transcript.txt")
    with (str "_transcript" ++ EXTSEP :: str "txt").
  rewrite app_assoc. unfold accept, file_extension.
  rewrite splitext_intro.
  - now vm_compute.
  - apply (bool_decide_unpack _). now vm_compute.
  - apply (bool_decide_unpack _). now vm_compute.
  - rewrite basename_app_absent
      by (apply (bool_decide_unpack _); now vm_compute).
    rewrite existsb_app. apply orb_true_iff. right. now vm_compute.
Qed.

(** X3: two files get the same transcript path exactly when their names
    have the same stem: the directory of the audio file and its extension
    play no part, so [song.mp3] and [song.wav] share one transcript. *)
Theorem transcript_path_same_iff_same_stem :
  forall p q : pystr,
    transcript_path (basename p) = transcript_path (basename q)
    <-> (splitext (basename p)).1 = (splitext (basename q)).1.
Proof.
  intros p q.
  destruct (transcript_path_eq _ (basename_no_sep p)) as [-> _].
  destruct (transcript_path_eq _ (basename_no_sep q)) as [-> _].
  split.
  - intros H. apply app_inv_head in H. injection H as H.
    now apply app_inv_tail in H.
  - now intros ->.
Qed.

(** X6: the path a run writes to is never the path it reads, and its
    name, [<stem>_transcript.txt], is one the filter rejects: a transcript
    is never taken for an audio file. *)
Theorem transcript_is_no_input :
  forall filepath : pystr,
    transcript_path (basename filepath) <> filepath
    /\ basename (transcript_path (basename filepath))
       = (splitext (basename filepath)).1 ++ str "_transcript.txt"
    /\ accept (basename (transcript_path (basename filepath))) = false.
Proof.
  intros filepath. split; [apply transcript_path_fresh |].
  split; [apply transcript_basename | apply transcript_not_accepted].
Qed.

(** ** What a run does to the files *)

Lemma write_text_files path text w :
  files (write_text path text w).2 = files w
  \/ exists data, files (write_text path text w).2 = <[path := data]> (files w).
Proof.
  unfold write_text. destruct (open_fault w path); [now left |].
  destruct (utf8_encode text); [right; now eexists |].
  destruct (flush_fault w path) as [[e n]|]; right; now eexists.
Qed.

Lemma transcribe_file_files filepath deepgram w :
  files (transcribe_file filepath deepgram w).2 = files w
  \/ exists data,
       files (transcribe_file filepath deepgram w).2
       = <[transcript_path (basename filepath) := data]> (files w).
Proof.
  destruct (run_cases filepath deepgram w)
    as [[e [Hread | data Hread Hcall | data response Hread Hcall Hnone ->
            | data response text Hread Hcall Htext Hwrite]]
       | (text & encoded & Hc)].
  - left. rewrite (run_read_raises _ _ _ _ Hread). apply files_logs.
  - left. rewrite (run_call_raises _ _ _ _ _ Hread Hcall). apply files_logs.
  - left. rewrite (run_extract_raises _ _ _ _ _ Hread Hcall Hnone).
    apply files_logs.
  - rewrite (run_write_raises _ _ _ _ _ _ _ Hread Hcall Htext Hwrite).
    cbn [snd]. rewrite files_logs. apply write_text_files.
  - right. destruct (run_clean _ _ _ _ _ Hc) as (data & ->).
    exists encoded. cbn [snd]. now rewrite files_logs.
Qed.

Lemma on_created_files self event w :
  files (on_created self event w).2 = files w
  \/ (starts_run event = true
      /\ exists data,
           files (on_created self event w).2
           = <[transcript_path (basename (src_path event)) := data]> (files w)).
Proof.
  unfold starts_run.
  destruct (is_directory event) eqn:Hdir.
  { left. now rewrite (on_created_directory _ _ _ Hdir). }
  destruct (accept (basename (src_path event))) eqn:Hacc.
  2:{ left. rewrite (on_created_ignored _ _ _ Hdir Hacc). apply files_logs. }
  rewrite (on_created_accepted _ _ _ Hdir Hacc).
  destruct (transcribe_file_files (src_path event) (deepgram self)
              (logs [Print (LNewFile (basename (src_path event))); Sleep 1] w))
    as [H | [data H]].
  - left. rewrite H. apply files_logs.
  - right. split; [reflexivity |]. exists data. rewrite H. now rewrite files_logs.
Qed.

Lemma dispatch_nil self w : dispatch self [] w = (Ok tt, w).
Proof. reflexivity. Qed.



(** X5: the monitor never removes a file and never touches an audio file:
    whatever events are handled, every path that existed still exists,
    every path other than the transcript paths of the runs started holds
    what it held, and in particular so does the file of every run. *)
Theorem dispatch_preserves_inputs :
  forall (self : AudioHandler) (events : list FileSystemEvent) (w : World),
    let w' := (dispatch self events w).2 in
    dom (files w) ⊆ dom (files w')
    /\ (forall p,
          (forall event, event ∈ events -> starts_run event = true ->
                         p <> transcript_path (basename (src_path event))) ->
          files w' !! p = files w !! p)
    /\ (forall event, event ∈ events -> starts_run event = true ->
                      files w' !! src_path event = files w !! src_path event).
Proof.
  intros self events w w'. subst w'.
  assert (Hframe : forall events w p,
             (forall event, event ∈ events -> starts_run event = true ->
                            p <> transcript_path (basename (src_path event))) ->
             files (dispatch self events w).2 !! p = files w !! p).
  { clear. intros events. induction events as [|event rest IH]; intros w p Hp;
      [reflexivity |].
    rewrite dispatch_cons, IH
      by (intros e He; apply Hp; now right).
    destruct (on_created_files self event w) as [-> | (Hrun & data & ->)];
      [reflexivity |].
    apply lookup_insert_ne. apply not_eq_sym, Hp; [now left | exact Hrun]. }
  split; [| split].
  - revert w. induction events as [|event rest IH]; intros w; [reflexivity |].
    rewrite dispatch_cons. etransitivity; [| apply IH].
    destruct (on_created_files self event w) as [-> | (_ & data & ->)];
      [reflexivity |].
    rewrite dom_insert. set_solver.
  - apply Hframe.
  - intros event Hin Hrun. apply Hframe. intros event' _ Hrun' E.
    unfold starts_run in Hrun.
    apply andb_prop in Hrun as [_ Hacc].
    rewrite E, transcript_not_accepted in Hacc. discriminate.
Qed.

(** ** UTF-8 *)

Lemma utf8_cp_none c : utf8_cp c = None <-> surrogate c = true.
Proof.
  unfold utf8_cp, surrogate.
  destruct (c <? 0x80) eqn:E1.
  { apply N.ltb_lt in E1. split; [discriminate |].
    intros [H%N.leb_le _]%andb_prop. lia. }
  destruct (c <? 0x800) eqn:E2.
  { apply N.ltb_lt in E2. split; [discriminate |].
    intros [H%N.leb_le _]%andb_prop. lia. }
  destruct ((0xD800 <=? c) && (c <=? 0xDFFF)); [tauto |].
  destruct (c <? 0x10000); split; discriminate.
Qed.

(** Encoding fails exactly on the strings that hold a surrogate. *)
Lemma utf8_encode_from_fails position s :
  (exists e, utf8_encode_from position s = inl e)
  <-> exists c, c ∈ s /\ surrogate c = true.
Proof.
  revert position. induction s as [|c s IH]; intros position; cbn.
  { split; [intros [e [=]] | intros (c & Hc & _); inversion Hc]. }
  destruct (utf8_cp c) as [b|] eqn:Hcp.
  - assert (Hc : surrogate c = false).
    { destruct (surrogate c) eqn:E; [| reflexivity].
      apply utf8_cp_none in E. congruence. }
    specialize (IH (S position)).
    destruct (utf8_encode_from (S position) s) as [e|bs].
    + split; [intros _ | now eexists].
      destruct (proj1 IH (ex_intro _ e eq_refl)) as (x & Hx & Hs).
      exists x. split; [now right | exact Hs].
    + split; [intros [e [=]] |].
      intros (x & [-> | Hx]%elem_of_cons & Hs); [congruence |].
      destruct (proj2 IH (ex_intro _ x (conj Hx Hs))) as [e [=]].
  - split; [intros _ | now eexists].
    exists c. split; [now left | now apply utf8_cp_none].
Qed.

(** ** Runs of accepted events, step by step *)

Section AcceptedEvent.
Variables (self : AudioHandler) (event : FileSystemEvent) (w : World).
Hypothesis Hfile : is_directory event = false.
Hypothesis Hacc : accept (basename (src_path event)) = true.

Let filename := basename (src_path event).
Let opening : list Effect :=
  [Print (LNewFile filename); Sleep 1; Print (LProcessing filename);
   OpenRead (src_path event)].

Lemma event_read_raises e :
  (read_binary (src_path event) w).1 = Raise e ->
  on_created self event w
  = (Ok tt, logs (opening ++ [Print (LError filename e)]) w).
Proof.
  intros Hread. rewrite (on_created_accepted _ _ _ Hfile Hacc).
  rewrite (run_read_raises _ _ _ e); [reflexivity |].
  now rewrite read_binary_logs.
Qed.

Lemma event_call_raises data e :
  (read_binary (src_path event) w).1 = Ok data ->
  deepgram self (requests (trace w)) (transcribe_request data) = inl e ->
  on_created self event w
  = (Ok tt,
     logs (opening ++ [Transcribe (transcribe_request data);
                       Print (LError filename e)]) w).
Proof.
  intros Hread Hcall. rewrite (on_created_accepted _ _ _ Hfile Hacc).
  rewrite (run_call_raises _ _ _ data e); [reflexivity | |].
  - now rewrite read_binary_logs.
  - now rewrite requests_announced.
Qed.

Lemma event_extract_raises data response :
  (read_binary (src_path event) w).1 = Ok data ->
  deepgram self (requests (trace w)) (transcribe_request data) = inr response ->
  first_transcript response = None ->
  on_created self event w
  = (Ok tt,
     logs (opening ++ [Transcribe (transcribe_request data);
                       Print (LError filename IndexError)]) w).
Proof.
  intros Hread Hcall Hnone. rewrite (on_created_accepted _ _ _ Hfile Hacc).
  rewrite (run_extract_raises _ _ _ data response); [reflexivity | | | exact Hnone].
  - now rewrite read_binary_logs.
  - now rewrite requests_announced.
Qed.

Lemma event_write_raises data response text e :
  (read_binary (src_path event) w).1 = Ok data ->
  deepgram self (requests (trace w)) (transcribe_request data) = inr response ->
  first_transcript response = Some text ->
  (write_text (transcript_path filename) text w).1 = Raise e ->
  on_created self event w
  = (Ok tt,
     logs (opening ++ [Transcribe (transcribe_request data);
                       OpenWrite (transcript_path filename);
                       Print (LError filename e)])
       (set_files (files (write_text (transcript_path filename) text w).2) w)).
Proof.
  intros Hread Hcall Htext Hwrite.
  rewrite (on_created_accepted _ _ _ Hfile Hacc).
  rewrite (run_write_raises _ _ _ data response text e);
    [| now rewrite read_binary_logs | now rewrite requests_announced
     | exact Htext | now rewrite write_text_logs].
  f_equal. unfold write_text.
  change (open_fault (logs ?t w)) with (open_fault w).
  change (flush_fault (logs ?t w)) with (flush_fault w).
  destruct (open_fault w _); [reflexivity |].
  destruct (utf8_encode text); [reflexivity |].
  now destruct (flush_fault w _) as [[e' n]|].
Qed.

Lemma event_clean data response text encoded :
  (read_binary (src_path event) w).1 = Ok data ->
  deepgram self (requests (trace w)) (transcribe_request data) = inr response ->
  first_transcript response = Some text ->
  (write_text (transcript_path filename) text w).1 = Ok tt ->
  utf8_encode text = inr encoded ->
  on_created self event w
  = (Ok tt,
     logs (opening ++ [Transcribe (transcribe_request data);
                       OpenWrite (transcript_path filename);
                       Print (LSuccess (transcript_path filename));
                       Print (LTranscript (take 80 text))])
       (set_files (<[transcript_path filename := encoded]> (files w)) w)).
Proof.
  intros [Hfault Hlook]%read_binary_inv Hcall
    (channel & chs & alternative & alts & Hch & Halt & <-)%first_transcript_some
    Hwrite Henc.
  rewrite (on_created_accepted _ _ _ Hfile Hacc).
  subst opening filename. unfold write_text in Hwrite.
  destruct (open_fault w _) eqn:Hopen; [discriminate |]. rewrite Henc in Hwrite.
  destruct (flush_fault w _) as [[e' n]|] eqn:Hflush; [discriminate |].
  clear Hwrite. unfold logs. cbn [fold_left app]. now replay.
Qed.
End AcceptedEvent.

(** ** Error paths *)

(** X7: when the file of an accepted event is not there at the time it
    is read (one second after the event), the run ends at once on the
    Error line: the client is not called, nothing is opened for writing
    and the files are unchanged; the error is [FileNotFoundError] unless
    the operating system refuses the path for another reason. *)
Theorem missing_file_is_reported :
  forall (self : AudioHandler) (event : FileSystemEvent) (w : World),
    is_directory event = false ->
    accept (basename (src_path event)) = true ->
    files w !! src_path event = None ->
    let r := on_created self event w in
    exists e,
      r = (Ok tt,
           logs [Print (LNewFile (basename (src_path event))); Sleep 1;
                 Print (LProcessing (basename (src_path event)));
                 OpenRead (src_path event);
                 Print (LError (basename (src_path event)) e)] w)
      /\ (read_fault w (src_path event) = None ->
          e = FileNotFoundError (src_path event))
      /\ requests (new_trace w r.2) = []
      /\ writes (new_trace w r.2) = []
      /\ files r.2 = files w
      /\ outcomes (new_trace w r.2) = [Error].
Proof.
  intros self event w Hfile Hacc Hgone r. subst r.
  assert (Hread : exists e,
             (read_binary (src_path event) w).1 = Raise e
             /\ (read_fault w (src_path event) = None ->
                 e = FileNotFoundError (src_path event))).
  { unfold read_binary. rewrite Hgone.
    destruct (read_fault w (src_path event)) as [e|].
    - exists e. split; [reflexivity | discriminate].
    - eexists. split; reflexivity. }
  destruct Hread as (e & Hread & He). exists e.
  rewrite (event_read_raises self event w Hfile Hacc e Hread). cbn [snd app].
  rewrite new_trace_logs, files_logs. now repeat split.
Qed.

Lemma missing_file_is_reported_witness :
  is_directory sample_event = false
  /\ accept (basename (src_path sample_event)) = true
  /\ files (world_of ∅) !! src_path sample_event = None
  /\ exists e,
       on_created {| deepgram := stub_returning (str "hello world") |}
         sample_event (world_of ∅)
       = (Ok tt,
          logs [Print (LNewFile (basename (src_path sample_event))); Sleep 1;
                Print (LProcessing (basename (src_path sample_event)));
                OpenRead (src_path sample_event);
                Print (LError (basename (src_path sample_event)) e)]
            (world_of ∅))
       /\ (read_fault (world_of ∅) (src_path sample_event) = None ->
           e = FileNotFoundError (src_path sample_event)).
Proof.
  assert (Hgone : files (world_of ∅) !! src_path sample_event = None)
    by apply lookup_empty.
  split; [reflexivity |]. split; [reflexivity |]. split; [exact Hgone |].
  destruct (missing_file_is_reported
              {| deepgram := stub_returning (str "hello world") |}
              sample_event (world_of ∅) eq_refl eq_refl Hgone)
    as (e & Hrun & He & _).
  exists e. split; assumption.
Defined.

(** X8: when the client answers an accepted file's request with a
    response that has no channel, or whose first channel has no
    alternative, indexing raises [IndexError]: the run reports Error after
    its one client call, opens nothing for writing and leaves the files
    unchanged. *)
Theorem empty_response_is_reported :
  forall (self : AudioHandler) (event : FileSystemEvent) (w : World)
         (data : bytes) (response : Response),
    is_directory event = false ->
    accept (basename (src_path event)) = true ->
    (read_binary (src_path event) w).1 = Ok data ->
    deepgram self (requests (trace w)) (transcribe_request data) = inr response ->
    (channels (results response) = []
     \/ exists channel rest,
          channels (results response) = channel :: rest
          /\ alternatives channel = []) ->
    let r := on_created self event w in
    r = (Ok tt,
         logs [Print (LNewFile (basename (src_path event))); Sleep 1;
               Print (LProcessing (basename (src_path event)));
               OpenRead (src_path event);
               Transcribe (transcribe_request data);
               Print (LError (basename (src_path event)) IndexError)] w)
    /\ requests (new_trace w r.2) = [transcribe_request data]
    /\ writes (new_trace w r.2) = []
    /\ files r.2 = files w
    /\ outcomes (new_trace w r.2) = [Error].
Proof.
  intros self event w data response Hfile Hacc Hread Hcall Hempty r. subst r.
  assert (Hnone : first_transcript response = None).
  { unfold first_transcript.
    destruct Hempty as [-> | (channel & rest & -> & ->)]; reflexivity. }
  rewrite (event_extract_raises self event w Hfile Hacc data response
             Hread Hcall Hnone).
  cbn [snd app]. rewrite new_trace_logs, files_logs. now repeat split.
Qed.

Lemma empty_response_is_reported_witness :
  is_directory sample_event = false
  /\ accept (basename (src_path sample_event)) = true
  /\ (read_binary (src_path sample_event) sample_world).1
     = Ok [0x52; 0x49; 0x46; 0x46]
  /\ channels (results {| results := {| channels := [] |} |}) = []
  /\ outcomes
       (new_trace sample_world
          (on_created {| deepgram := stub_no_channels |}
             sample_event sample_world).2) = [Error]
  /\ files (on_created {| deepgram := stub_no_channels |}
              sample_event sample_world).2 = files sample_world.
Proof.
  assert (Hread : (read_binary (src_path sample_event) sample_world).1
                  = Ok [0x52; 0x49; 0x46; 0x46]) by now vm_compute.
  split; [reflexivity |]. split; [reflexivity |]. split; [exact Hread |].
  split; [reflexivity |].
  destruct (empty_response_is_reported
              {| deepgram := stub_no_channels |} sample_event sample_world
              [0x52; 0x49; 0x46; 0x46] {| results := {| channels := [] |} |}
              eq_refl eq_refl Hread eq_refl (or_introl eq_refl))
    as (_ & _ & _ & Hf & Ho).
  split; assumption.
Defined.

(** X9: whenever the file of an accepted event can be read, the run
    makes exactly one request to the client, whatever happens next, and
    that request carries the whole content of the file, an empty content
    included, with model [nova-3], smart formatting and diarization. *)
Theorem request_is_file_content :
  forall (self : AudioHandler) (event : FileSystemEvent) (w : World)
         (data : bytes),
    is_directory event = false ->
    accept (basename (src_path event)) = true ->
    (read_binary (src_path event) w).1 = Ok data ->
    requests (new_trace w (on_created self event w).2)
    = [{| request := data; model := str "nova-3";
          smart_format := true; diarize := true |}].
Proof.
  intros self event w data Hfile Hacc Hread.
  destruct (deepgram self (requests (trace w)) (transcribe_request data))
    as [e | response] eqn:Hcall.
  { rewrite (event_call_raises self event w Hfile Hacc data e Hread Hcall).
    cbn [snd]. now rewrite new_trace_logs. }
  destruct (first_transcript response) as [text |] eqn:Htext.
  2:{ rewrite (event_extract_raises self event w Hfile Hacc data response
                 Hread Hcall Htext).
      cbn [snd]. now rewrite new_trace_logs. }
  destruct (write_text (transcript_path (basename (src_path event))) text w).1
    as [[] | e] eqn:Hwrite.
  2:{ rewrite (event_write_raises self event w Hfile Hacc data response text e
                 Hread Hcall Htext Hwrite).
      cbn [snd]. now rewrite new_trace_logs_set. }
  assert (exists encoded, utf8_encode text = inr encoded) as [encoded Henc].
  { unfold write_text in Hwrite. destruct (open_fault w _); [discriminate |].
    destruct (utf8_encode text) as [e | encoded]; [discriminate |].
    now exists encoded. }
  rewrite (event_clean self event w Hfile Hacc data response text encoded
             Hread Hcall Htext Hwrite Henc).
  cbn [snd]. now rewrite new_trace_logs_set.
Qed.

Lemma request_is_file_content_witness :
  is_directory silence_event = false
  /\ accept (basename (src_path silence_event)) = true
  /\ (read_binary (src_path silence_event) empty_file_world).1 = Ok []
  /\ map request
       (requests
          (new_trace empty_file_world
             (on_created {| deepgram := stub_returning (str "") |}
                silence_event empty_file_world).2))
     = [[]].
Proof.
  assert (Hread : (read_binary (src_path silence_event) empty_file_world).1
                  = Ok []) by now vm_compute.
  split; [reflexivity |]. split; [reflexivity |]. split; [exact Hread |].
  now rewrite (request_is_file_content
                 {| deepgram := stub_returning (str "") |}
                 silence_event empty_file_world [] eq_refl eq_refl Hread).
Defined.

(** X10: a transcript holding a surrogate code point cannot be written
    as UTF-8.  Since the output file is opened, and so emptied, before the
    text is encoded, the run reports [UnicodeEncodeError] and leaves the
    transcript file empty: what an earlier run had saved there is lost. *)
Theorem unencodable_transcript_empties_file :
  forall (self : AudioHandler) (event : FileSystemEvent) (w : World)
         (data : bytes) (response : Response) (text : pystr) (c : N),
    is_directory event = false ->
    accept (basename (src_path event)) = true ->
    (read_binary (src_path event) w).1 = Ok data ->
    deepgram self (requests (trace w)) (transcribe_request data) = inr response ->
    first_transcript response = Some text ->
    c ∈ text -> surrogate c = true ->
    open_fault w (transcript_path (basename (src_path event))) = None ->
    let r := on_created self event w in
    (exists position,
       last (new_trace w r.2)
       = Some (Print (LError (basename (src_path event))
                        (UnicodeEncodeError position))))
    /\ outcomes (new_trace w r.2) = [Error]
    /\ files r.2
       = <[transcript_path (basename (src_path event)) := []]> (files w)
    /\ files r.2 !! transcript_path (basename (src_path event)) = Some [].
Proof.
  intros self event w data response text c Hfile Hacc Hread Hcall Htext
    Hc Hsur Hopen r. subst r.
  destruct (proj2 (utf8_encode_from_fails 0 text)
              (ex_intro _ c (conj Hc Hsur))) as [e Henc].
  assert (He : exists position, e = UnicodeEncodeError position).
  { clear -Henc. revert Henc. generalize 0%nat.
    induction text as [|x text IH]; intros position; cbn; [discriminate |].
    destruct (utf8_cp x); [| intros [= <-]; now eexists].
    destruct (utf8_encode_from (S position) text) eqn:E; [| discriminate].
    intros [= <-]. now apply (IH (S position)). }
  destruct He as [position ->].
  assert (Hwrite : write_text (transcript_path (basename (src_path event)))
                     text w
                   = (Raise (UnicodeEncodeError position),
                      set_files
                        (<[transcript_path (basename (src_path event)) := []]>
                           (files w))
                        (log (OpenWrite
                                (transcript_path (basename (src_path event))))
                           w))).
  { unfold write_text, utf8_encode. now rewrite Hopen, Henc. }
  rewrite (event_write_raises self event w Hfile Hacc data response text
             (UnicodeEncodeError position) Hread Hcall Htext)
    by now rewrite Hwrite.
  rewrite Hwrite. cbn [snd app]. rewrite new_trace_logs_set, files_logs.
  cbn [files set_files].
  split; [now exists position |]. split; [reflexivity |].
  split; [reflexivity | apply lookup_insert_eq].
Qed.

Lemma unencodable_transcript_empties_file_witness :
  is_directory sample_event = false
  /\ accept (basename (src_path sample_event)) = true
  /\ (0xD800 ∈ [0x68; 0xD800]) /\ surrogate 0xD800 = true
  /\ files transcribed_world !! str "/tmp/transcripts/sample_transcript.txt"
     = Some (str "hello world")
  /\ files (on_created {| deepgram := stub_returning [0x68; 0xD800] |}
              sample_event transcribed_world).2
     !! transcript_path (basename (src_path sample_event))
     = Some [].
Proof.
  assert (Hread : (read_binary (src_path sample_event) transcribed_world).1
                  = Ok [0x52; 0x49; 0x46; 0x46]) by now vm_compute.
  assert (Hin : 0xD800 ∈ [0x68; 0xD800]) by (right; left).
  split; [reflexivity |]. split; [reflexivity |]. split; [exact Hin |].
  split; [reflexivity |]. split; [now vm_compute |].
  exact (proj2 (proj2 (proj2
    (unencodable_transcript_empties_file
       {| deepgram := stub_returning [0x68; 0xD800] |}
       sample_event transcribed_world [0x52; 0x49; 0x46; 0x46]
       (respond [0x68; 0xD800]) [0x68; 0xD800] 0xD800
       eq_refl eq_refl Hread eq_refl eq_refl Hin eq_refl eq_refl)))).
Defined.

(** ** Batches of events *)

Lemma dispatch_extends self events w :
  exists t, trace (dispatch self events w).2 = trace w ++ t.
Proof.
  revert w. induction events as [|event rest IH]; intros w.
  - exists []. cbn. now rewrite app_nil_r.
  - rewrite dispatch_cons.
    destruct (on_created_extends self event w) as [t1 H1].
    destruct (IH (on_created self event w).2) as [t2 H2].
    exists (t1 ++ t2). now rewrite H2, H1, app_assoc.
Qed.

Lemma new_trace_trans w w1 w2 :
  (exists t, trace w1 = trace w ++ t) ->
  (exists t, trace w2 = trace w1 ++ t) ->
  new_trace w w2 = new_trace w w1 ++ new_trace w1 w2.
Proof.
  intros [t1 H1] [t2 H2].
  rewrite (new_trace_app _ _ _ H1), (new_trace_app _ _ _ H2).
  apply new_trace_app. now rewrite H2, H1, app_assoc.
Qed.










(** ** Events that start no run change nothing for the others *)









(** ** Files with the same stem *)

(** X4: when two files whose names have the same stem, such as
    [song.mp3] and [song.wav], are transcribed with success one after the
    other, both runs write the same path and the second transcript
    replaces the first: one transcript is left for the two files. *)
Theorem same_stem_overwrites :
  forall (p q : pystr) (deepgram deepgram' : DeepgramClient) (w : World),
    (splitext (basename p)).1 = (splitext (basename q)).1 ->
    let r1 := transcribe_file p deepgram w in
    let r2 := transcribe_file q deepgram' r1.2 in
    Success ∈ outcomes (new_trace w r1.2) ->
    Success ∈ outcomes (new_trace r1.2 r2.2) ->
    exists text2 encoded1 encoded2,
      runs_clean q deepgram' r1.2 text2 encoded2
      /\ files r1.2 = <[transcript_path (basename p) := encoded1]> (files w)
      /\ files r2.2 = <[transcript_path (basename p) := encoded2]> (files w)
      /\ dom (files r2.2) = dom (files r1.2).
Proof.
  intros p q deepgram deepgram' w Hstem r1 r2 H1 H2. subst r1 r2.
  assert (Hpath : transcript_path (basename q) = transcript_path (basename p)).
  { unfold transcript_path. now rewrite Hstem. }
  destruct (success_is_clean _ _ _ H1) as (text1 & encoded1 & Hc1).
  destruct (success_is_clean _ _ _ H2) as (text2 & encoded2 & Hc2).
  exists text2, encoded1, encoded2. split; [exact Hc2 |].
  destruct (run_clean _ _ _ _ _ Hc2) as (data2 & ->).
  clear Hc2 H2. destruct (run_clean _ _ _ _ _ Hc1) as (data1 & ->).
  cbn [snd]. repeat (rewrite files_logs; cbn [files set_files]).
  rewrite Hpath, insert_insert_eq. repeat split.
  rewrite !dom_insert_L. set_solver.
Qed.

Lemma same_stem_overwrites_witness :
  (splitext (basename song_mp3)).1 = (splitext (basename song_wav)).1
  /\ exists text2 encoded1 encoded2,
       runs_clean song_wav (stub_returning (str "second"))
         (transcribe_file song_mp3 (stub_returning (str "first")) song_world).2
         text2 encoded2
       /\ files (transcribe_file song_mp3 (stub_returning (str "first"))
                   song_world).2
          = <[transcript_path (basename song_mp3) := encoded1]>
              (files song_world)
       /\ files (transcribe_file song_wav (stub_returning (str "second"))
                   (transcribe_file song_mp3 (stub_returning (str "first"))
                      song_world).2).2
          = <[transcript_path (basename song_mp3) := encoded2]>
              (files song_world).
Proof.
  split; [reflexivity |].
  destruct (same_stem_overwrites song_mp3 song_wav
              (stub_returning (str "first")) (stub_returning (str "second"))
              song_world eq_refl)
    as (text2 & encoded1 & encoded2 & Hc & Hf1 & Hf2 & _).
  - replace (outcomes _) with [Success] by now vm_compute. now left.
  - replace (outcomes _) with [Success] by now vm_compute. now left.
  - exists text2, encoded1, encoded2. repeat split; assumption.
Defined.

(** * The monitor process *)

(** ** [os.path.split] and [os.makedirs] *)

Lemma rstrip_sep_length p : (length (rstrip_sep p) <= length p)%nat.
Proof.
  induction p as [|c p IH]; cbn; [lia |].
  destruct (rstrip_sep p); [destruct (c =? SEP) |]; cbn in *; lia.
Qed.

(** The two parts of a split are no longer than the path. *)
Lemma posix_split_length p :
  (length (posix_split p).1 + length (posix_split p).2 <= length p)%nat.
Proof.
  unfold posix_split, slice_to, slice_from. cbn [fst snd].
  pose proof (take_drop (Z.to_nat (rfind SEP p + 1)) p) as H.
  apply (f_equal length) in H. rewrite length_app in H.
  destruct (_ && _); [| lia].
  pose proof (rstrip_sep_length (take (Z.to_nat (rfind SEP p + 1)) p)). lia.
Qed.

(** [length name] is fuel enough: more fuel changes nothing. *)
Lemma makedirs_fuel_enough n m name h :
  (length name <= n)%nat -> (length name <= m)%nat ->
  makedirs_fuel n name h = makedirs_fuel m name h.
Proof.
  revert m name h. induction n as [|n IH]; intros m name h Hn Hm.
  - destruct name; [| cbn in Hn; lia]. now destruct m.
  - destruct m as [|m].
    { destruct name; [reflexivity | cbn in Hm; lia]. }
    cbn [makedirs_fuel].
    pose proof (posix_split_length name) as H1.
    destruct (posix_split name) as [head tail] eqn:E1. cbn [fst snd] in H1.
    pose proof (posix_split_length head) as H2.
    assert (Hlen : forall head' tail',
               (if bool_decide (tail = []) then posix_split head
                else (head, tail)) = (head', tail') ->
               tail' <> [] -> (length head' < length name)%nat).
    { intros head' tail' E Hne. case_bool_decide.
      - rewrite E in H2. cbn [fst snd] in H2.
        destruct tail'; [congruence | cbn in H2; lia].
      - injection E as <- <-. destruct tail; [congruence | cbn in H1; lia]. }
    destruct (if bool_decide (tail = []) then posix_split head
              else (head, tail)) as [head' tail'] eqn:E2.
    destruct (bool_decide (head' <> []) && bool_decide (tail' <> [])
              && negb (path_exists h head')) eqn:C; [| reflexivity].
    apply andb_prop in C as [[_ Ht%bool_decide_eq_true]%andb_prop _].
    specialize (Hlen head' tail' eq_refl Ht).
    rewrite (IH m head' h) by lia. reflexivity.
Qed.


(** ** Steps that handle no event *)

Lemma new_steps_app h h' s :
  journal h' = journal h ++ s -> new_steps h h' = s.
Proof. intros H. unfold new_steps. rewrite H. apply drop_app_length. Qed.








(** ** The loop *)

Lemma handle_run event_handler event h :
  handle event_handler event h
  = (Ok tt,
     record (map Handler
               (new_trace (world h)
                  (on_created event_handler event (world h)).2))
       (set_world (on_created event_handler event (world h)).2 h)).
Proof.
  unfold handle. pose proof (on_created_total event_handler event (world h)) as H.
  destruct (on_created event_handler event (world h)) as [r w'].
  cbn in *. now rewrite H.
Qed.

(** The loop handles the events delivered before the first interrupt, as
    [dispatch] does, and nothing else. *)
Lemma watch_run event_handler inputs h :
  let r := watch event_handler inputs h in
  let w' := (dispatch event_handler (before_interrupt inputs) (world h)).2 in
  r.1 = Ok (if interrupted inputs then Returned else Watching)
  /\ world r.2 = w'
  /\ dirs r.2 = dirs h
  /\ same_oracles h r.2
  /\ journal r.2
     = journal h ++ map Handler (new_trace (world h) w') ++ tail_of_watch inputs.
Proof.
  revert h. induction inputs as [|[event|] rest IH]; intros h r w'; subst r w'.
  - cbn. rewrite new_trace_refl. unfold same_oracles.
    repeat split. now rewrite !app_nil_r.
  - change (watch event_handler (Deliver event :: rest) h)
      with (hbind (handle event_handler event)
              (fun _ => watch event_handler rest) h).
    change (interrupted (Deliver event :: rest)) with (interrupted rest).
    change (before_interrupt (Deliver event :: rest))
      with (event :: before_interrupt rest).
    change (tail_of_watch (Deliver event :: rest)) with (tail_of_watch rest).
    unfold hbind. rewrite handle_run.
    specialize (IH (record (map Handler
                              (new_trace (world h)
                                 (on_created event_handler event (world h)).2))
                      (set_world (on_created event_handler event (world h)).2 h))).
    cbv zeta in IH. cbn [world dirs journal record set_world] in IH.
    destruct IH as (Hr & Hw & Hd & Ho & Hj).
    rewrite dispatch_cons.
    split; [exact Hr |]. split; [exact Hw |]. split; [exact Hd |].
    split; [exact Ho |].
    rewrite Hj, <- app_assoc. f_equal.
    rewrite app_assoc, <- map_app. do 2 f_equal.
    symmetry. apply new_trace_trans;
      [apply on_created_extends | apply dispatch_extends].
  - cbn. rewrite new_trace_refl. unfold same_oracles.
    repeat split. cbn. now rewrite <- !app_assoc.
Qed.

(** ** [run_monitor] *)



Lemma hbind_step {B} (s : Step) (k : unit -> HM B) (h : Host) :
  hbind (step s) k h = k tt (record [s] h).
Proof. reflexivity. Qed.

Lemma hbind_new_client {B} api_key (k : exn + DeepgramClient -> HM B) h :
  hbind (new_client api_key) k h
  = k (connect h api_key) (record [Connect api_key] h).
Proof. reflexivity. Qed.

Lemma hbind_case {A B} (m : HM A) (k : A -> HM B) (h : Host) :
  hbind m k h
  = match (m h).1 with
    | Ok a => k a (m h).2
    | Raise e => (Raise e, (m h).2)
    end.
Proof. unfold hbind. now destruct (m h) as [[a | e] h']. Qed.

(** From the scheduling of the handler on: the banner, [observer.start()]
    and the loop. *)
Lemma banner_run event_handler inputs h :
  let r := (step (Schedule WATCH_DIRECTORY false) ;;
            say LRule ;;
            say (LStarting WATCH_DIRECTORY) ;;
            say LHint ;;
            say LPressCtrlC ;;
            say LRule ;;
            observer_start ;;
            watch event_handler inputs)%host h in
  let w' := (dispatch event_handler (before_interrupt inputs) (world h)).2 in
  dirs r.2 = dirs h
  /\ same_oracles h r.2
  /\ match start_fault h with
     | Some e =>
         r.1 = Raise e /\ world r.2 = world h
         /\ journal r.2 = journal h ++ banner
     | None =>
         r.1 = Ok (if interrupted inputs then Returned else Watching)
         /\ world r.2 = w'
         /\ journal r.2
            = journal h ++ banner ++ map Handler (new_trace (world h) w')
              ++ tail_of_watch inputs
     end.
Proof.
  intros r w'. subst r w'. unfold say. rewrite !hbind_step.
  set (h6 := record [Say LRule] _).
  assert (Hj6 : journal h6
                = journal h
                  ++ [Schedule WATCH_DIRECTORY false; Say LRule;
                      Say (LStarting WATCH_DIRECTORY); Say LHint;
                      Say LPressCtrlC; Say LRule]).
  { subst h6. cbn [journal record]. now rewrite <- !app_assoc. }
  assert (Hs6 : start_fault h6 = start_fault h) by reflexivity.
  assert (Hw6 : world h6 = world h) by reflexivity.
  assert (Hd6 : dirs h6 = dirs h) by reflexivity.
  assert (Ho6 : same_oracles h h6) by (repeat split).
  clearbody h6. unfold hbind, observer_start. rewrite Hs6.
  destruct (start_fault h) as [e|] eqn:Hs.
  - cbn [fst snd dirs world journal record]. rewrite Hj6, <- app_assoc.
    repeat split; try assumption; apply Ho6.
  - destruct (watch_run event_handler inputs (record [Start] h6))
      as (Hr & Hw & Hd & Ho & Hj).
    cbn [world dirs journal record] in Hr, Hw, Hd, Ho, Hj.
    cbn [fst snd]. rewrite Hw6 in Hw, Hj. rewrite Hj6 in Hj.
    split; [now rewrite Hd |].
    split.
    { destruct Ho as (Ho1 & Ho2 & Ho3), Ho6 as (Ho4 & Ho5 & Ho7).
      cbn [connect mkdir_fault start_fault record] in Ho1, Ho2, Ho3.
      repeat split; etransitivity; eassumption. }
    split; [exact Hr |]. split; [exact Hw |].
    rewrite Hj. now rewrite <- !app_assoc.
Qed.

(** X15: when the client cannot be constructed, [run_monitor] prints
    the CRITICAL line with the exception and returns: no directory is
    made, the observer is not started and no event is ever handled,
    whatever arrives. *)
Theorem client_failure_ends_monitor :
  forall (api_key : pystr) (inputs : list Input) (h : Host) (e : exn),
    connect h api_key = inl e ->
    let r := run_monitor api_key inputs h in
    r.1 = Ok Returned
    /\ journal r.2 = journal h ++ [Connect api_key; Say (LCritical e)]
    /\ dirs r.2 = dirs h
    /\ world r.2 = world h.
Proof.
  intros api_key inputs h e He r. subst r.
  unfold run_monitor, hbind, new_client. cbn [fst snd]. rewrite He.
  cbn. now rewrite <- app_assoc.
Qed.

Lemma client_failure_ends_monitor_witness :
  connect (bare_host (inl (ClientError (str "bad key"))) sample_world)
    (str "key")
  = inl (ClientError (str "bad key"))
  /\ (run_monitor (str "key") [Deliver sample_event; Interrupt]
        (bare_host (inl (ClientError (str "bad key"))) sample_world)).1
     = Ok Returned
  /\ world (run_monitor (str "key") [Deliver sample_event; Interrupt]
              (bare_host (inl (ClientError (str "bad key"))) sample_world)).2
     = sample_world.
Proof.
  split; [reflexivity |].
  destruct (client_failure_ends_monitor (str "key")
              [Deliver sample_event; Interrupt]
              (bare_host (inl (ClientError (str "bad key"))) sample_world)
              (ClientError (str "bad key")) eq_refl)
    as (Hr & _ & _ & Hw).
  split; assumption.
Defined.




(** ** The directories of [run_monitor] *)

Lemma makedirs_fuel_eq fuel name h :
  makedirs_fuel fuel name h
  = (let '(head, tail) := posix_split name in
     let '(head, tail) :=
       if bool_decide (tail = []) then posix_split head else (head, tail) in
     let make_it := mkdir name in
     let after_head h' :=
       if bool_decide (tail = str ".") then (Ok tt, h') else make_it h' in
     if bool_decide (head <> []) && bool_decide (tail <> [])
        && negb (path_exists h head)
     then
       match fuel with
       | O => make_it h
       | S fuel' =>
           match makedirs_fuel fuel' head h with
           | (Ok _, h') => after_head h'
           | (Raise e, h') =>
               if is_file_exists_error e then after_head h'
               else (Raise e, h')
           end
       end
     else make_it h).
Proof. now destruct fuel. Qed.

Lemma path_exists_no_file h path :
  files (world h) !! path = None ->
  path_exists h path = bool_decide (path ∈ dirs h).
Proof.
  intros Hf. unfold path_exists. rewrite Hf.
  rewrite (bool_decide_eq_false_2 (is_Some None)) by (intros [? ?]; discriminate).
  apply orb_false_r.
Qed.

Lemma mkdir_ok path h :
  mkdir_fault h path = None ->
  path_exists h path = false ->
  (posix_split path).1 ∈ dirs h ->
  mkdir path h = (Ok tt, set_dirs (dirs h ∪ {[path]}) (record [Mkdir path] h)).
Proof.
  intros Hm He Hp. unfold mkdir. rewrite Hm, He.
  now rewrite bool_decide_eq_true_2.
Qed.

Lemma posix_split_tmp : posix_split TMP = (ROOT, str "tmp").
Proof. now vm_compute. Qed.

Lemma posix_split_watch :
  posix_split WATCH_DIRECTORY = (TMP, str "audio_to_process").
Proof. now vm_compute. Qed.

Lemma posix_split_transcripts :
  posix_split TRANSCRIPT_DIRECTORY = (TMP, str "transcripts").
Proof. now vm_compute. Qed.

(** [/tmp] is made by one [mkdir] when [/] is there. *)
Lemma makedirs_fuel_tmp fuel h :
  ROOT ∈ dirs h -> makedirs_fuel fuel TMP h = mkdir TMP h.
Proof.
  intros Hroot. rewrite makedirs_fuel_eq, posix_split_tmp. cbn beta iota.
  rewrite (bool_decide_eq_false_2 (str "tmp" = [])) by discriminate.
  cbn beta iota.
  assert (He : path_exists h ROOT = true).
  { unfold path_exists. now rewrite bool_decide_eq_true_2. }
  rewrite He. cbn [negb]. now rewrite andb_false_r.
Qed.

Lemma makedirs_under_tmp name leaf h :
  posix_split name = (TMP, leaf) ->
  leaf <> [] -> leaf <> str "." ->
  ROOT ∈ dirs h ->
  files (world h) !! TMP = None ->
  mkdir_fault h TMP = None ->
  mkdir_fault h name = None ->
  path_exists h name = false ->
  makedirs name h = (Ok tt, made_under_tmp name h).
Proof.
  intros Hsplit Hleaf Hdot Hroot HfT HmT Hmn Hex.
  assert (Hname : name <> TMP).
  { intros ->. rewrite posix_split_tmp in Hsplit. discriminate. }
  unfold makedirs, made_under_tmp.
  rewrite makedirs_fuel_eq, Hsplit. cbn beta iota.
  rewrite (bool_decide_eq_false_2 (leaf = [])) by assumption. cbn beta iota.
  rewrite (bool_decide_eq_true_2 (TMP <> [])) by discriminate.
  rewrite (bool_decide_eq_true_2 (leaf <> [])) by assumption.
  rewrite (bool_decide_eq_false_2 (leaf = str ".")) by assumption.
  rewrite (path_exists_no_file h TMP HfT). cbn [andb].
  destruct (bool_decide (TMP ∈ dirs h)) eqn:HT; cbn [negb].
  - apply bool_decide_eq_true in HT.
    apply mkdir_ok; [assumption | assumption |]. now rewrite Hsplit.
  - apply bool_decide_eq_false in HT.
    assert (Htmp : forall n, makedirs_fuel n TMP h
                   = (Ok tt, set_dirs (dirs h ∪ {[TMP]}) (record [Mkdir TMP] h))).
    { intros n. rewrite makedirs_fuel_tmp by assumption.
      apply mkdir_ok; [assumption | |].
      - rewrite (path_exists_no_file h TMP HfT).
        now apply bool_decide_eq_false_2.
      - now rewrite posix_split_tmp. }
    assert (Hlast : mkdir name (set_dirs (dirs h ∪ {[TMP]}) (record [Mkdir TMP] h))
                    = (Ok tt,
                       set_dirs
                         (dirs (set_dirs (dirs h ∪ {[TMP]})
                                  (record [Mkdir TMP] h)) ∪ {[name]})
                         (record [Mkdir name]
                            (set_dirs (dirs h ∪ {[TMP]})
                               (record [Mkdir TMP] h))))).
    { apply mkdir_ok.
      - exact Hmn.
      - unfold path_exists in *. cbn [dirs world set_dirs record].
        apply orb_false_iff in Hex as [Hd Hf]. rewrite Hf.
        apply bool_decide_eq_false in Hd.
        rewrite bool_decide_eq_false_2; [reflexivity |].
        intros [Hin | Hin%elem_of_singleton]%elem_of_union; contradiction.
      - rewrite Hsplit. cbn [fst dirs set_dirs].
        apply elem_of_union_r. now apply elem_of_singleton. }
    destruct (length name) as [|n] eqn:Hlen; [| now rewrite Htmp].
    (* the path is not empty *)
    apply length_zero_iff_nil in Hlen. subst name.
    vm_compute in Hsplit. discriminate.
Qed.

Lemma existsb_handlers (P : Step -> bool) t :
  (forall e, P (Handler e) = false) -> existsb P (map Handler t) = false.
Proof.
  intros HP. induction t as [|e t IH]; [reflexivity |]. cbn. now rewrite HP.
Qed.

(** [if not os.path.exists(name): os.makedirs(name); print(line)] for a
    path directly under [/tmp], when no regular file is in the way and
    the system refuses nothing. *)
Lemma ensure_directory_under_tmp name leaf line h :
  posix_split name = (TMP, leaf) ->
  leaf <> [] -> leaf <> str "." ->
  ROOT ∈ dirs h ->
  files (world h) !! TMP = None ->
  files (world h) !! name = None ->
  mkdir_fault h TMP = None ->
  mkdir_fault h name = None ->
  let r := ensure_directory name line h in
  r.1 = Ok tt
  /\ world r.2 = world h
  /\ same_oracles h r.2
  /\ dirs h ⊆ dirs r.2
  /\ dirs r.2 ⊆ dirs h ∪ {[ TMP; name ]}
  /\ name ∈ dirs r.2
  /\ exists steps,
       journal r.2 = journal h ++ steps
       /\ forallb is_boot_step steps = true
       /\ forall Q,
            existsb (says Q) steps
            = Q line && negb (bool_decide (name ∈ dirs h)).
Proof.
  intros Hsplit Hleaf Hdot Hroot HfT Hfn HmT Hmn r. subst r.
  unfold ensure_directory.
  rewrite (path_exists_no_file h name Hfn).
  destruct (bool_decide (name ∈ dirs h)) eqn:Hin; cbn [negb].
  - apply bool_decide_eq_true in Hin. cbn [hret fst snd].
    split; [reflexivity |]. split; [reflexivity |].
    split; [now repeat split |]. split; [reflexivity |].
    split; [apply union_subseteq_l |]. split; [exact Hin |].
    exists []. rewrite app_nil_r.
    split; [reflexivity |]. split; [reflexivity |].
    intros Q. now rewrite andb_false_r.
  - rewrite hbind_case.
    rewrite (makedirs_under_tmp name leaf h) by
      (try assumption; now rewrite (path_exists_no_file h name Hfn)).
    apply bool_decide_eq_false in Hin. cbn [fst snd]. unfold say, step.
    cbn [fst snd]. unfold made_under_tmp.
    destruct (bool_decide (TMP ∈ dirs h)) eqn:HT;
      cbn [world dirs journal set_dirs record].
    + split; [reflexivity |]. split; [reflexivity |].
      split; [now repeat split |]. split; [apply union_subseteq_l |].
      split; [apply union_mono_l, union_subseteq_r |].
      split; [apply elem_of_union_r; now apply elem_of_singleton |].
      exists [Mkdir name; Say line]. rewrite <- app_assoc.
      split; [reflexivity |]. split; [reflexivity |].
      intros Q. cbn. now rewrite !orb_false_r, andb_true_r.
    + split; [reflexivity |]. split; [reflexivity |].
      split; [now repeat split |].
      split; [etransitivity; apply union_subseteq_l |].
      split; [now rewrite <- (assoc_L (∪)) |].
      split; [apply elem_of_union_r; now apply elem_of_singleton |].
      exists [Mkdir TMP; Mkdir name; Say line]. rewrite <- !app_assoc.
      split; [reflexivity |]. split; [reflexivity |].
      intros Q. cbn. now rewrite !orb_false_r, andb_true_r.
Qed.

Lemma run_monitor_eq api_key inputs h deepgram :
  connect h api_key = inr deepgram ->
  run_monitor api_key inputs h
  = (ensure_directory WATCH_DIRECTORY (LCreatedWatch WATCH_DIRECTORY) ;;
     ensure_directory TRANSCRIPT_DIRECTORY
       (LCreatedTranscripts TRANSCRIPT_DIRECTORY) ;;
     step (Schedule WATCH_DIRECTORY false) ;;
     say LRule ;;
     say (LStarting WATCH_DIRECTORY) ;;
     say LHint ;;
     say LPressCtrlC ;;
     say LRule ;;
     observer_start ;;
     watch {| deepgram := deepgram |} inputs)%host
      (record [Connect api_key] h).
Proof.
  intros Hc. unfold run_monitor. now rewrite hbind_new_client, Hc.
Qed.

Lemma ensure_directory_exists d line h :
  path_exists h d = true -> ensure_directory d line h = (Ok tt, h).
Proof. intros He. unfold ensure_directory. now rewrite He. Qed.

Lemma tail_of_watch_quiet (P : Step -> bool) inputs :
  P Stop = false -> P Join = false -> P (Say LStopped) = false ->
  existsb P (tail_of_watch inputs) = false.
Proof.
  intros H1 H2 H3. unfold tail_of_watch.
  destruct (interrupted inputs); cbn; now rewrite ?H1, ?H2, ?H3.
Qed.

Lemma filter_none {A} (P : A -> bool) l :
  existsb P l = false -> List.filter P l = [].
Proof.
  induction l as [|a l IH]; [reflexivity |]. cbn.
  intros [-> H]%orb_false_iff. now apply IH.
Qed.

(** X17: [run_monitor] only asks whether the two paths exist.  When both
    do, be it as regular files, it makes no directory and prints no
    "Created" line, and goes on to start the observer on the watch path;
    the call then ends as [observer.start()] and the inputs decide. *)
Theorem bootstrap_only_tests_existence :
  forall (api_key : pystr) (inputs : list Input) (h : Host)
         (deepgram : DeepgramClient),
    connect h api_key = inr deepgram ->
    path_exists h WATCH_DIRECTORY = true ->
    path_exists h TRANSCRIPT_DIRECTORY = true ->
    let r := run_monitor api_key inputs h in
    dirs r.2 = dirs h
    /\ List.filter is_mkdir (new_steps h r.2) = []
    /\ List.filter is_created_line (new_steps h r.2) = []
    /\ In Start (new_steps h r.2)
    /\ r.1 = match start_fault h with
             | Some e => Raise e
             | None => Ok (if interrupted inputs then Returned else Watching)
             end.
Proof.
  intros api_key inputs h deepgram Hc Hw Ht r. subst r.
  rewrite (run_monitor_eq _ _ _ _ Hc).
  set (h1 := record [Connect api_key] h).
  assert (Hw1 : path_exists h1 WATCH_DIRECTORY = true) by exact Hw.
  assert (Ht1 : path_exists h1 TRANSCRIPT_DIRECTORY = true) by exact Ht.
  rewrite hbind_case, (ensure_directory_exists _ _ _ Hw1). cbn [fst snd].
  rewrite hbind_case, (ensure_directory_exists _ _ _ Ht1). cbn [fst snd].
  destruct (banner_run {| deepgram := deepgram |} inputs h1)
    as (Hd & _ & Hb). cbv zeta in Hb.
  change (start_fault h1) with (start_fault h) in Hb.
  change (world h1) with (world h) in Hb.
  change (journal h1) with (journal h ++ [Connect api_key]) in Hb.
  split; [exact Hd |].
  destruct (start_fault h) as [e|].
  - destruct Hb as (Hr & _ & Hj). rewrite <- app_assoc in Hj.
    rewrite (new_steps_app _ _ _ Hj).
    split; [reflexivity |]. split; [reflexivity |].
    split; [| exact Hr]. cbn. tauto.
  - destruct Hb as (Hr & _ & Hj). rewrite <- app_assoc in Hj.
    rewrite (new_steps_app _ _ _ Hj).
    split; [| split; [| split; [| exact Hr]]].
    + apply filter_none. rewrite !existsb_app.
      rewrite existsb_handlers by reflexivity.
      now rewrite tail_of_watch_quiet.
    + apply filter_none. rewrite !existsb_app.
      rewrite existsb_handlers by reflexivity.
      now rewrite tail_of_watch_quiet.
    + cbn. tauto.
Qed.

Lemma bootstrap_only_tests_existence_witness :
  path_exists (occupied_host (inr (stub_returning (str "hi")))) WATCH_DIRECTORY
  = true
  /\ (WATCH_DIRECTORY
      ∉ dirs (run_monitor (str "key") [Interrupt]
                (occupied_host (inr (stub_returning (str "hi"))))).2)
  /\ (run_monitor (str "key") [Interrupt]
        (occupied_host (inr (stub_returning (str "hi"))))).1
     = Ok Returned.
Proof.
  assert (Hw : path_exists (occupied_host (inr (stub_returning (str "hi"))))
                 WATCH_DIRECTORY = true) by now vm_compute.
  assert (Ht : path_exists (occupied_host (inr (stub_returning (str "hi"))))
                 TRANSCRIPT_DIRECTORY = true) by now vm_compute.
  destruct (bootstrap_only_tests_existence (str "key") [Interrupt]
              (occupied_host (inr (stub_returning (str "hi"))))
              (stub_returning (str "hi")) eq_refl Hw Ht)
    as (Hd & _ & _ & _ & Hr).
  split; [exact Hw |]. split; [| exact Hr].
  rewrite Hd. apply (bool_decide_unpack _). now vm_compute.
Defined.

(** X18: on a system where [/] is a directory, no regular file sits at
    [/tmp] or at either configured path and [mkdir] is not refused there,
    [run_monitor] leaves both directories in place and does not fail
    before [observer.start()].  It makes nothing but [/tmp] and the two
    directories, removes none, and prints each "Created" line exactly
    when that directory was missing. *)
Theorem bootstrap_makes_directories :
  forall (api_key : pystr) (inputs : list Input) (h : Host)
         (deepgram : DeepgramClient),
    connect h api_key = inr deepgram ->
    ROOT ∈ dirs h ->
    files (world h) !! TMP = None ->
    files (world h) !! WATCH_DIRECTORY = None ->
    files (world h) !! TRANSCRIPT_DIRECTORY = None ->
    mkdir_fault h TMP = None ->
    mkdir_fault h WATCH_DIRECTORY = None ->
    mkdir_fault h TRANSCRIPT_DIRECTORY = None ->
    let r := run_monitor api_key inputs h in
    WATCH_DIRECTORY ∈ dirs r.2
    /\ TRANSCRIPT_DIRECTORY ∈ dirs r.2
    /\ dirs h ⊆ dirs r.2
    /\ dirs r.2 ⊆ dirs h ∪ {[ TMP; WATCH_DIRECTORY; TRANSCRIPT_DIRECTORY ]}
    /\ existsb (says is_created_watch) (new_steps h r.2)
       = negb (bool_decide (WATCH_DIRECTORY ∈ dirs h))
    /\ existsb (says is_created_transcripts) (new_steps h r.2)
       = negb (bool_decide (TRANSCRIPT_DIRECTORY ∈ dirs h))
    /\ r.1 = match start_fault h with
             | Some e => Raise e
             | None => Ok (if interrupted inputs then Returned else Watching)
             end.
Proof.
  intros api_key inputs h deepgram Hc Hroot HfT HfW HfS HmT HmW HmS r.
  subst r. rewrite (run_monitor_eq _ _ _ _ Hc).
  set (h1 := record [Connect api_key] h).
  destruct (ensure_directory_under_tmp WATCH_DIRECTORY (str "audio_to_process")
              (LCreatedWatch WATCH_DIRECTORY) h1 posix_split_watch)
    as (Hr2 & Hw2 & Ho2 & Hsub2 & Hsup2 & Hin2 & s2 & Hj2 & Hb2 & Hq2);
    try assumption; try discriminate.
  rewrite hbind_case, Hr2.
  set (h2 := (ensure_directory WATCH_DIRECTORY _ h1).2) in *.
  destruct Ho2 as (_ & Hm2 & Hs2).
  destruct (ensure_directory_under_tmp TRANSCRIPT_DIRECTORY (str "transcripts")
              (LCreatedTranscripts TRANSCRIPT_DIRECTORY) h2
              posix_split_transcripts)
    as (Hr3 & Hw3 & Ho3 & Hsub3 & Hsup3 & Hin3 & s3 & Hj3 & Hb3 & Hq3);
    try discriminate;
    [ now apply Hsub2 | now rewrite Hw2 | now rewrite Hw2
    | now rewrite Hm2 | now rewrite Hm2 |].
  rewrite hbind_case, Hr3.
  set (h3 := (ensure_directory TRANSCRIPT_DIRECTORY _ h2).2) in *.
  destruct Ho3 as (_ & _ & Hs3).
  destruct (banner_run {| deepgram := deepgram |} inputs h3)
    as (Hd & _ & Hb). cbv zeta in Hb.
  rewrite Hs3, Hs2 in Hb. change (start_fault h1) with (start_fault h) in Hb.
  change (dirs h1) with (dirs h) in *.
  change (journal h1) with (journal h ++ [Connect api_key]) in Hj2.
  assert (Hother : bool_decide (TRANSCRIPT_DIRECTORY ∈ dirs h2)
                   = bool_decide (TRANSCRIPT_DIRECTORY ∈ dirs h)).
  { apply bool_decide_ext. split; [| apply Hsub2].
    intros [Hin | [Hin%elem_of_singleton | Hin%elem_of_singleton]%elem_of_union
           ]%Hsup2%elem_of_union; [exact Hin | discriminate | discriminate]. }
  rewrite Hd.
  split; [now apply Hsub3 |]. split; [exact Hin3 |].
  split; [etransitivity; eassumption |].
  split.
  { intros p [Hp | Hp]%Hsup3%elem_of_union.
    - apply Hsup2, elem_of_union in Hp as [Hp | Hp];
        [now apply elem_of_union_l | apply elem_of_union_r].
      apply elem_of_union in Hp as [Hp | Hp];
        [apply elem_of_union_l, elem_of_union_l | apply elem_of_union_l, elem_of_union_r];
        exact Hp.
    - apply elem_of_union_r.
      apply elem_of_union in Hp as [Hp | Hp];
        [apply elem_of_union_l, elem_of_union_l | apply elem_of_union_r];
        exact Hp. }
  assert (Hsteps : exists rest,
            new_steps h h3 = Connect api_key :: s2 ++ s3
            /\ journal (
                 (step (Schedule WATCH_DIRECTORY false) ;;
                  say LRule ;;
                  say (LStarting WATCH_DIRECTORY) ;;
                  say LHint ;;
                  say LPressCtrlC ;;
                  say LRule ;;
                  observer_start ;;
                  watch {| deepgram := deepgram |} inputs)%host h3).2
               = journal h3 ++ banner ++ rest
            /\ existsb (says is_created_watch) rest = false
            /\ existsb (says is_created_transcripts) rest = false
            /\ ((step (Schedule WATCH_DIRECTORY false) ;;
                  say LRule ;;
                  say (LStarting WATCH_DIRECTORY) ;;
                  say LHint ;;
                  say LPressCtrlC ;;
                  say LRule ;;
                  observer_start ;;
                  watch {| deepgram := deepgram |} inputs)%host h3).1
               = match start_fault h with
                 | Some e => Raise e
                 | None =>
                     Ok (if interrupted inputs then Returned else Watching)
                 end).
  { destruct (start_fault h) as [e|].
    - exists []. destruct Hb as (Hr & _ & Hj).
      split; [apply new_steps_app; rewrite Hj3, Hj2;
              now rewrite <- !app_assoc |].
      split; [now rewrite app_nil_r |]. now repeat split.
    - destruct Hb as (Hr & _ & Hj). eexists.
      split; [apply new_steps_app; rewrite Hj3, Hj2;
              now rewrite <- !app_assoc |].
      split; [exact Hj |].
      rewrite !existsb_app, !existsb_handlers by reflexivity.
      rewrite !tail_of_watch_quiet by reflexivity. now repeat split. }
  destruct Hsteps as (rest & Hn3 & Hj & Hqw & Hqt & Hr).
  assert (Hn : new_steps h
                 ((step (Schedule WATCH_DIRECTORY false) ;;
                  say LRule ;;
                  say (LStarting WATCH_DIRECTORY) ;;
                  say LHint ;;
                  say LPressCtrlC ;;
                  say LRule ;;
                  observer_start ;;
                  watch {| deepgram := deepgram |} inputs)%host h3).2
               = [Connect api_key] ++ s2 ++ s3 ++ banner ++ rest).
  { apply new_steps_app. rewrite Hj, Hj3, Hj2. now rewrite <- !app_assoc. }
  assert (Hbw : existsb (says is_created_watch) banner = false)
    by reflexivity.
  assert (Hbt : existsb (says is_created_transcripts) banner = false)
    by reflexivity.
  assert (Hcw : existsb (says is_created_watch) [Connect api_key] = false)
    by reflexivity.
  assert (Hct : existsb (says is_created_transcripts) [Connect api_key]
                = false) by reflexivity.
  rewrite Hn, !existsb_app, Hcw, Hct, !Hq2, !Hq3, Hbw, Hbt, Hqw, Hqt, Hother.
  cbn [is_created_watch is_created_transcripts andb orb].
  rewrite !orb_false_r. now repeat split.
Qed.

Lemma bootstrap_makes_directories_witness :
  ROOT ∈ dirs (root_only_host (inr (stub_returning (str "hi"))) sample_world)
  /\ (TMP ∉ dirs (root_only_host (inr (stub_returning (str "hi")))
                    sample_world))
  /\ WATCH_DIRECTORY
     ∈ dirs (run_monitor (str "key") []
               (root_only_host (inr (stub_returning (str "hi")))
                  sample_world)).2
  /\ TRANSCRIPT_DIRECTORY
     ∈ dirs (run_monitor (str "key") []
               (root_only_host (inr (stub_returning (str "hi")))
                  sample_world)).2.
Proof.
  assert (Hroot : ROOT ∈ dirs (root_only_host
                                 (inr (stub_returning (str "hi")))
                                 sample_world))
    by (apply (bool_decide_unpack _); now vm_compute).
  split; [exact Hroot |].
  split; [apply (bool_decide_unpack _); now vm_compute |].
  assert (HfT : files (world (root_only_host
                                (inr (stub_returning (str "hi")))
                                sample_world)) !! TMP = None)
    by now vm_compute.
  assert (HfW : files (world (root_only_host
                                (inr (stub_returning (str "hi")))
                                sample_world)) !! WATCH_DIRECTORY = None)
    by now vm_compute.
  assert (HfS : files (world (root_only_host
                                (inr (stub_returning (str "hi")))
                                sample_world)) !! TRANSCRIPT_DIRECTORY = None)
    by now vm_compute.
  destruct (bootstrap_makes_directories (str "key") []
              (root_only_host (inr (stub_returning (str "hi"))) sample_world)
              (stub_returning (str "hi")) eq_refl Hroot HfT HfW HfS
              eq_refl eq_refl eq_refl)
    as (Hw & Ht & _).
  split; assumption.
Defined.

(** X19: [run_monitor] does not catch what [os.makedirs] raises.  When
    the watch directory is missing under an existing [/tmp] and the system
    refuses the [mkdir], that exception leaves [run_monitor]: nothing is
    created or printed, the observer is never started and no event is
    handled, whatever arrives. *)
Theorem mkdir_failure_escapes :
  forall (api_key : pystr) (inputs : list Input) (h : Host)
         (deepgram : DeepgramClient) (e : exn),
    connect h api_key = inr deepgram ->
    path_exists h WATCH_DIRECTORY = false ->
    TMP ∈ dirs h ->
    mkdir_fault h WATCH_DIRECTORY = Some e ->
    let r := run_monitor api_key inputs h in
    r.1 = Raise e
    /\ new_steps h r.2 = [Connect api_key; Mkdir WATCH_DIRECTORY]
    /\ dirs r.2 = dirs h
    /\ world r.2 = world h.
Proof.
  intros api_key inputs h deepgram e Hc Hw Htmp Hm r. subst r.
  rewrite (run_monitor_eq _ _ _ _ Hc).
  set (h1 := record [Connect api_key] h).
  assert (Hrun : ensure_directory WATCH_DIRECTORY
                   (LCreatedWatch WATCH_DIRECTORY) h1
                 = (Raise e, record [Mkdir WATCH_DIRECTORY] h1)).
  { unfold ensure_directory.
    change (path_exists h1 WATCH_DIRECTORY)
      with (path_exists h WATCH_DIRECTORY).
    rewrite Hw. cbn [negb]. rewrite hbind_case.
    assert (Hmk : makedirs WATCH_DIRECTORY h1
                  = (Raise e, record [Mkdir WATCH_DIRECTORY] h1)).
    { unfold makedirs. rewrite makedirs_fuel_eq, posix_split_watch.
      cbn beta iota.
      rewrite (bool_decide_eq_false_2 (str "audio_to_process" = []))
        by discriminate.
      cbn beta iota.
      assert (He : path_exists h1 TMP = true).
      { unfold path_exists. change (dirs h1) with (dirs h).
        now rewrite bool_decide_eq_true_2. }
      rewrite He. cbn [negb]. rewrite andb_false_r.
      unfold mkdir. change (mkdir_fault h1) with (mkdir_fault h).
      now rewrite Hm. }
    now rewrite Hmk. }
  rewrite hbind_case, Hrun. cbn [fst snd].
  split; [reflexivity |]. split; [| now split].
  apply new_steps_app. subst h1. cbn [journal record].
  now rewrite <- app_assoc.
Qed.

Lemma mkdir_failure_escapes_witness :
  path_exists (readonly_host (inr (stub_returning (str "hi"))) sample_world)
    WATCH_DIRECTORY = false
  /\ (run_monitor (str "key") [Deliver sample_event; Interrupt]
        (readonly_host (inr (stub_returning (str "hi"))) sample_world)).1
     = Raise (OSError EACCES WATCH_DIRECTORY).
Proof.
  assert (Hw : path_exists (readonly_host (inr (stub_returning (str "hi")))
                              sample_world) WATCH_DIRECTORY = false)
    by now vm_compute.
  split; [exact Hw |].
  assert (Htmp : TMP ∈ dirs (readonly_host (inr (stub_returning (str "hi")))
                               sample_world))
    by (apply (bool_decide_unpack _); now vm_compute).
  exact (proj1 (mkdir_failure_escapes (str "key")
                  [Deliver sample_event; Interrupt]
                  (readonly_host (inr (stub_returning (str "hi"))) sample_world)
                  (stub_returning (str "hi")) (OSError EACCES WATCH_DIRECTORY)
                  eq_refl Hw Htmp eq_refl)).
Defined.
